(** * Ubuntu image fetcher: a shallow embedding of [python_fetcher.py]

    The development follows the source file top-down.  The first modules
    model the parts of the Python runtime the fetcher calls
    ([str] methods, [int], [urllib.parse], [os.path], [hashlib.md5]);
    module [Fetcher] then embeds the methods of [UbuntuImageFetcher]
    with explicit state passing and an error type for exceptions.

    Text is a [string] whose characters are code points below 256 (the
    range of HTTP header values decoded by the transport); bodies are
    [list byte]; Python integers are [Z].  A URL typed by the user may
    hold any code point: what [urllib.parse] does with a network
    location that is not ASCII is a parameter of the world
    ([check_nfkc_netloc]), and the properties that need every URL to
    parse ask for ASCII URLs.  [print] is taken to succeed: the
    standard output can encode the messages. *)

From Stdlib Require Import ZArith NArith Lia Ascii String List.
From Stdlib Require Import Strings.Byte.
From stdpp Require Import base gmap sets list strings pretty.

Local Open Scope Z_scope.

(** ** Exceptions *)

(** The exception classes that matter to the handlers of
    [download_image]: [RequestException] stands for the class and its
    subclasses, [OtherException] for any other subclass of [Exception]. *)
Inductive exn := ValueError | OSError | RequestException | OtherException.

Inductive result (A : Type) : Type :=
| Ok (a : A)
| Raise (e : exn).
Arguments Ok {A} a.
Arguments Raise {A} e.

(** [result] is an error monad; stdpp's [x ← r; k] sequences two steps and
    stops at the first exception. *)
#[global] Instance result_ret : MRet result := fun _ a => Ok a.
#[global] Instance result_bind : MBind result := fun _ _ k r =>
  match r with
  | Ok a => k a
  | Raise e => Raise e
  end.

(** ** Python [str] methods *)

Module Str.

Definition code (a : ascii) : Z := Z.of_N (N_of_ascii a).

Definition len (s : string) : Z := Z.of_nat (String.length s).

(** [s.find(c)]: index of the first [c], or [-1]. *)
Fixpoint find (c : ascii) (s : string) : Z :=
  match s with
  | EmptyString => -1
  | String a s' =>
      if Ascii.eqb a c then 0
      else let r := find c s' in if r <? 0 then -1 else r + 1
  end.

(** [s.rfind(c)]: index of the last [c], or [-1]. *)
Fixpoint rfind (c : ascii) (s : string) : Z :=
  match s with
  | EmptyString => -1
  | String a s' =>
      let r := rfind c s' in
      if 0 <=? r then r + 1 else if Ascii.eqb a c then 0 else -1
  end.

(** [c in s] *)
Definition contains (c : ascii) (s : string) : bool := 0 <=? find c s.

Fixpoint take (n : nat) (s : string) : string :=
  match n, s with
  | S n', String a s' => String a (take n' s')
  | _, _ => EmptyString
  end.

Fixpoint drop (n : nat) (s : string) : string :=
  match n, s with
  | S n', String _ s' => drop n' s'
  | _, _ => s
  end.

(** [s[:i]] and [s[i:]]; every index sliced with in the code below is
    non-negative. *)
Definition slice_to (s : string) (i : Z) : string := take (Z.to_nat i) s.
Definition slice_from (s : string) (i : Z) : string := drop (Z.to_nat i) s.

(** [s.find(c, start)] for [0 <= start]. *)
Definition find_from (c : ascii) (s : string) (start : Z) : Z :=
  let r := find c (slice_from s start) in
  if r <? 0 then -1 else start + r.

Fixpoint forallb (f : ascii -> bool) (s : string) : bool :=
  match s with
  | EmptyString => true
  | String a s' => f a && forallb f s'
  end.

Fixpoint map (f : ascii -> ascii) (s : string) : string :=
  match s with
  | EmptyString => EmptyString
  | String a s' => String (f a) (map f s')
  end.

(** [s.lstrip(chars)], the set of characters given as a predicate. *)
Fixpoint lstrip (f : ascii -> bool) (s : string) : string :=
  match s with
  | EmptyString => EmptyString
  | String a s' => if f a then lstrip f s' else s
  end.

Definition rstrip (f : ascii -> bool) (s : string) : string :=
  String.rev (lstrip f (String.rev s)).

(** [s.replace(c, "")] *)
Fixpoint remove (c : ascii) (s : string) : string :=
  match s with
  | EmptyString => EmptyString
  | String a s' => if Ascii.eqb a c then remove c s' else String a (remove c s')
  end.

Definition is_upper_ascii (a : ascii) : bool :=
  (65 <=? code a) && (code a <=? 90).
Definition is_lower_ascii (a : ascii) : bool :=
  (97 <=? code a) && (code a <=? 122).
Definition is_digit (a : ascii) : bool :=
  (48 <=? code a) && (code a <=? 57).

(** [c.isascii()] *)
Definition is_ascii (a : ascii) : bool := code a <? 128.

(** [c.isascii() and c.isalpha()] *)
Definition is_ascii_alpha (a : ascii) : bool :=
  is_upper_ascii a || is_lower_ascii a.

(** [c.lower()] on a code point below 256: the ASCII capitals and the
    Latin-1 capitals U+00C0..U+00DE, the sign U+00D7 apart. *)
Definition lower_char (a : ascii) : ascii :=
  let n := code a in
  if is_upper_ascii a
     || ((192 <=? n) && (n <=? 222) && negb (n =? 215))
  then ascii_of_N (Z.to_N (n + 32))
  else a.

Definition lower (s : string) : string := map lower_char s.

(** [s.startswith(p)] *)
Definition startswith (p s : string) : bool := String.prefix p s.

(** Python truth value of a string. *)
Definition truthy (s : string) : bool :=
  match s with EmptyString => false | _ => true end.

(** [c.isspace()] on a code point below 256. *)
Definition is_space (a : ascii) : bool :=
  let n := code a in
  ((9 <=? n) && (n <=? 13)) || ((28 <=? n) && (n <=? 32))
  || (n =? 133) || (n =? 160).

(** [s.strip()] *)
Definition strip (s : string) : string := rstrip is_space (lstrip is_space s).

(** [s.split(c)]: the pieces between the occurrences of [c], empty
    pieces included; one piece at least. *)
Fixpoint split (c : ascii) (s : string) : list string :=
  match s with
  | EmptyString => [EmptyString]
  | String a s' =>
      if Ascii.eqb a c then EmptyString :: split c s'
      else match split c s' with
           | piece :: pieces => String a piece :: pieces
           | [] => [String a EmptyString]
           end
  end.

(** [c.join(pieces)] *)
Fixpoint join (c : ascii) (pieces : list string) : string :=
  match pieces with
  | [] => EmptyString
  | [piece] => piece
  | piece :: pieces' => piece +:+ String c (join c pieces')
  end.

End Str.

(** ** The builtin [int] on a string, base 10 *)

Module PyInt.

(** White space skipped on both sides of the literal. *)
Definition is_space (a : ascii) : bool :=
  let n := Str.code a in
  ((9 <=? n) && (n <=? 13)) || (n =? 32) || (n =? 133) || (n =? 160).

(** The digits of the literal, most significant first, with single
    underscores allowed between two digits only.  [prev] tells whether
    the previous character was a digit; the accumulator carries the
    value and the number of digits read. *)
Fixpoint digits (s : string) (prev : bool) (acc : Z) (n : Z) : option (Z * Z) :=
  match s with
  | EmptyString => if prev then Some (acc, n) else None
  | String a s' =>
      if Str.is_digit a then digits s' true (10 * acc + (Str.code a - 48)) (n + 1)
      else if Ascii.eqb a "_"%char then
        if prev then digits s' false acc n else None
      else None
  end.

(** [sys.int_max_str_digits], the default limit on the digits of a
    decimal literal. *)
Definition int_max_str_digits : Z := 4300.

Definition unsigned (s : string) : result Z :=
  match digits s false 0 0 with
  | Some (v, n) => if int_max_str_digits <? n then Raise ValueError else Ok v
  | None => Raise ValueError
  end.

(** [int(s)]: raises [ValueError] unless [s] is an optionally signed
    decimal literal, white space around it allowed. *)
Definition int (s : string) : result Z :=
  match Str.rstrip is_space (Str.lstrip is_space s) with
  | String "+"%char s' => unsigned s'
  | String "-"%char s' => v ← unsigned s'; Ok (- v)
  | s' => unsigned s'
  end.

End PyInt.

(** ** [urllib.parse] *)

(** [urlparse] and the functions it calls, after [Lib/urllib/parse.py]
    of CPython 3.11.  A [ValueError] of the library is [Raise
    ValueError]. *)
Module Urllib.

Record ParseResult := {
  scheme : string;
  netloc : string;
  path : string;
  params : string;
  query : string;
  fragment : string
}.

(** [scheme_chars]: the ASCII letters and digits and [+-.]. *)
Definition is_scheme_char (a : ascii) : bool :=
  Str.is_ascii_alpha a || Str.is_digit a
  || Ascii.eqb a "+"%char || Ascii.eqb a "-"%char || Ascii.eqb a "."%char.

(** [_WHATWG_C0_CONTROL_OR_SPACE]: the code points up to the space. *)
Definition is_c0_control_or_space (a : ascii) : bool := Str.code a <=? 32.

(** [_UNSAFE_URL_BYTES_TO_REMOVE]: tab, carriage return and line feed are
    removed wherever they stand. *)
Definition remove_unsafe (url : string) : string :=
  Str.remove "010"%char (Str.remove "013"%char (Str.remove "009"%char url)).

(** [uses_params] *)
Definition uses_params : list string :=
  [""; "ftp"; "hdl"; "prospero"; "http"; "imap"; "https"; "shttp"; "rtsp";
   "rtspu"; "sip"; "sips"; "mms"; "sftp"; "tel"].

(** [_splitnetloc(url, start)]: the network location runs from [start] to
    the first of [/], [?] and [#]. *)
Definition _splitnetloc (url : string) (start : Z) : string * string :=
  let step (delim : Z) (c : ascii) :=
    let wdelim := Str.find_from c url start in
    if 0 <=? wdelim then Z.min delim wdelim else delim in
  let delim := fold_left step ["/"; "?"; "#"]%char (Str.len url) in
  (Str.slice_from (Str.slice_to url delim) start, Str.slice_from url delim).

(** [url.split(c, 1)] for a [url] that holds [c]. *)
Definition split_once (c : ascii) (url : string) : string * string :=
  let i := Str.find c url in
  (Str.slice_to url i, Str.slice_from url (i + 1)).

Section urlsplit.

(** A network location with both brackets is further validated by
    [_check_bracketed_netloc] (the host between the brackets must be an
    IPv6 or IPvFuture literal); releases before that check accept every
    such location.  The validation is a parameter: it answers whether
    the location passes. *)
Variable check_bracketed_netloc : string -> bool.

(** A network location that is not ASCII is normalised by
    [unicodedata.normalize('NFKC', ...)] and refused when the normal
    form brings in one of [/?#@:] (as the code point U+2100 does, which
    expands to [a/c]).  The normalisation is a parameter: it answers
    whether the location passes. *)
Variable check_nfkc_netloc : string -> bool.

(** [_checknetloc(netloc)]: an empty or ASCII location returns at
    once. *)
Definition _checknetloc (netloc : string) : result unit :=
  if negb (Str.truthy netloc) || Str.forallb Str.is_ascii netloc then Ok tt
  else if check_nfkc_netloc netloc then Ok tt
  else Raise ValueError.

(** [urlsplit(url)] with the default [scheme=''] and
    [allow_fragments=True].  The test on [url[0]] reads [url[:1]], the
    same character since [0 < i]. *)
Definition urlsplit (url : string) : result ParseResult :=
  let url := Str.lstrip is_c0_control_or_space url in
  let url := remove_unsafe url in
  let i := Str.find ":" url in
  let '(scheme, url) :=
    if (0 <? i)
       && Str.forallb Str.is_ascii_alpha (Str.slice_to url 1)
       && Str.forallb is_scheme_char (Str.slice_to url i)
    then (Str.lower (Str.slice_to url i), Str.slice_from url (i + 1))
    else (EmptyString, url) in
  '(netloc, url) ←
    (if String.eqb (Str.slice_to url 2) "//" then
       let '(netloc, url) := _splitnetloc url 2 in
       let lb := Str.contains "[" netloc in
       let rb := Str.contains "]" netloc in
       if (lb && negb rb) || (rb && negb lb) then Raise ValueError
       else if lb && rb && negb (check_bracketed_netloc netloc)
            then Raise ValueError
       else Ok (netloc, url)
     else Ok (EmptyString, url));
  let '(url, fragment) :=
    if Str.contains "#" url then split_once "#" url else (url, EmptyString) in
  let '(url, query) :=
    if Str.contains "?" url then split_once "?" url else (url, EmptyString) in
  _ ← _checknetloc netloc;
  Ok {| scheme := scheme; netloc := netloc; path := url;
        params := EmptyString; query := query; fragment := fragment |}.

(** [_splitparams(url)] *)
Definition _splitparams (url : string) : string * string :=
  if Str.contains "/" url then
    let i := Str.find_from ";" url (Str.rfind "/" url) in
    if i <? 0 then (url, EmptyString)
    else (Str.slice_to url i, Str.slice_from url (i + 1))
  else
    let i := Str.find ";" url in
    (Str.slice_to url i, Str.slice_from url (i + 1)).

(** [urlparse(url)] *)
Definition urlparse (url : string) : result ParseResult :=
  r ← urlsplit url;
  let '(url, params) :=
    if bool_decide (scheme r ∈ uses_params) && Str.contains ";" (path r)
    then _splitparams (path r) else (path r, EmptyString) in
  Ok {| scheme := scheme r; netloc := netloc r; path := url;
        params := params; query := query r; fragment := fragment r |}.

End urlsplit.

End Urllib.

(** ** [os.path] on a POSIX system *)

(** After [Lib/posixpath.py] and [Lib/genericpath.py]. *)
Module OsPath.

(** [os.path.basename(p)] *)
Definition basename (p : string) : string :=
  let i := Str.rfind "/" p + 1 in
  Str.slice_from p i.

(** One step of [os.path.join]. *)
Definition join (a b : string) : string :=
  if Str.startswith "/" b then b
  else if negb (Str.truthy a) || Str.startswith "/" (String.rev a) then a +:+ b
  else a +:+ "/" +:+ b.

(** The loop of [_splitext] that skips the leading dots of the file name:
    [true] when a character other than the dot stands between [i] and
    the last dot.  [n] counts the characters left to inspect. *)
Fixpoint has_non_dot (p : string) (n : nat) : bool :=
  match n, p with
  | S n', String a p' => if Ascii.eqb a "."%char then has_non_dot p' n' else true
  | _, _ => false
  end.

(** [os.path.splitext(p)]: the extension starts at the last dot of the
    last component, leading dots of the component not counted. *)
Definition splitext (p : string) : string * string :=
  let sepIndex := Str.rfind "/" p in
  let dotIndex := Str.rfind "." p in
  if (sepIndex <? dotIndex)
     && has_non_dot (Str.slice_from p (sepIndex + 1))
                    (Z.to_nat (dotIndex - (sepIndex + 1)))
  then (Str.slice_to p dotIndex, Str.slice_from p dotIndex)
  else (p, EmptyString).

End OsPath.

(** ** [hashlib.md5] (RFC 1321) *)

Module Hashlib.

Local Open Scope N_scope.

Definition add32 (x y : N) : N := (x + y) mod 4294967296.
Definition not32 (x : N) : N := N.lxor x 4294967295.
Definition rotl32 (x c : N) : N :=
  N.lor (N.shiftl x c) (N.shiftr x (32 - c)) mod 4294967296.

(** Per-round shift amounts. *)
Definition shifts : list N :=
  [7; 12; 17; 22; 7; 12; 17; 22; 7; 12; 17; 22; 7; 12; 17; 22;
   5; 9; 14; 20; 5; 9; 14; 20; 5; 9; 14; 20; 5; 9; 14; 20;
   4; 11; 16; 23; 4; 11; 16; 23; 4; 11; 16; 23; 4; 11; 16; 23;
   6; 10; 15; 21; 6; 10; 15; 21; 6; 10; 15; 21; 6; 10; 15; 21].

(** [floor(2^32 * abs(sin(i + 1)))] for [i] from 0 to 63. *)
Definition sines : list N :=
  [3614090360; 3905402710; 606105819; 3250441966; 4118548399; 1200080426;
   2821735955; 4249261313; 1770035416; 2336552879; 4294925233; 2304563134;
   1804603682; 4254626195; 2792965006; 1236535329; 4129170786; 3225465664;
   643717713; 3921069994; 3593408605; 38016083; 3634488961; 3889429448;
   568446438; 3275163606; 4107603335; 1163531501; 2850285829; 4243563512;
   1735328473; 2368359562; 4294588738; 2272392833; 1839030562; 4259657740;
   2763975236; 1272893353; 4139469664; 3200236656; 681279174; 3936430074;
   3572445317; 76029189; 3654602809; 3873151461; 530742520; 3299628645;
   4096336452; 1126891415; 2878612391; 4237533241; 1700485571; 2399980690;
   4293915773; 2240044497; 1873313359; 4264355552; 2734768916; 1309151649;
   4149444226; 3174756917; 718787259; 3951481745].

(** [n] bytes of [x], least significant first. *)
Fixpoint le_bytes (n : nat) (x : N) : list N :=
  match n with
  | O => []
  | S n' => x mod 256 :: le_bytes n' (x / 256)
  end.

Fixpoint le_word (bs : list N) : N :=
  match bs with
  | [] => 0
  | b :: bs' => b + 256 * le_word bs'
  end.

(** The message, one [1] bit, zeros up to 56 modulo 64 bytes, and the
    bit length on 64 bits. *)
Definition pad (msg : list N) : list N :=
  let l := length msg in
  let zeros := ((119 - l mod 64) mod 64)%nat in
  msg ++ [128] ++ repeat 0 zeros ++ le_bytes 8 (8 * N.of_nat l mod 2 ^ 64).

(** Cut a list in groups of [k] elements; [fuel] bounds the number of
    groups. *)
Fixpoint groups {A} (k : nat) (fuel : nat) (l : list A) : list (list A) :=
  match fuel, l with
  | S fuel', _ :: _ => firstn k l :: groups k fuel' (skipn k l)
  | _, _ => []
  end.

Definition round (M : list N) (st : N * N * N * N) (i : N) : N * N * N * N :=
  let '(a, b, c, d) := st in
  let '(f, g) :=
    if i <? 16 then (N.lor (N.land b c) (N.land (not32 b) d), i)
    else if i <? 32 then (N.lor (N.land d b) (N.land (not32 d) c), (5 * i + 1) mod 16)
    else if i <? 48 then (N.lxor b (N.lxor c d), (3 * i + 5) mod 16)
    else (N.lxor c (N.lor b (not32 d)), (7 * i) mod 16) in
  let f := add32 (add32 (add32 f a) (nth (N.to_nat i) sines 0)) (nth (N.to_nat g) M 0) in
  (d, add32 b (rotl32 f (nth (N.to_nat i) shifts 0)), b, c).

Definition block (h : N * N * N * N) (bytes : list N) : N * N * N * N :=
  let M := List.map le_word (groups 4 16 bytes) in
  let '(a, b, c, d) := fold_left (round M) (List.map N.of_nat (seq 0 64)) h in
  let '(a0, b0, c0, d0) := h in
  (add32 a0 a, add32 b0 b, add32 c0 c, add32 d0 d).

Definition digest (msg : list N) : list N :=
  let p := pad msg in
  let '(a, b, c, d) :=
    fold_left block (groups 64 (length p) p)
              (1732584193, 4023233417, 2562383102, 271733878) in
  le_bytes 4 a ++ le_bytes 4 b ++ le_bytes 4 c ++ le_bytes 4 d.

Definition hex_digit (n : N) : ascii :=
  ascii_of_N (if n <? 10 then 48 + n else 87 + n).

Fixpoint hex (bs : list N) : string :=
  match bs with
  | [] => EmptyString
  | b :: bs' => String (hex_digit (b / 16)) (String (hex_digit (b mod 16)) (hex bs'))
  end.

(** [hashlib.md5(content).hexdigest()] *)
Definition md5_hexdigest (content : list byte) : string :=
  hex (digest (List.map Byte.to_N content)).

(** [bytes.fromhex(s)], to write bodies down; pairs of hexadecimal
    digits, anything else ends the literal. *)
Definition hex_value (a : ascii) : option N :=
  let n := N_of_ascii a in
  if (48 <=? n) && (n <=? 57) then Some (n - 48)
  else if (97 <=? n) && (n <=? 102) then Some (n - 87)
  else None.

Fixpoint fromhex (s : string) : list byte :=
  match s with
  | String h (String l s') =>
      match hex_value h, hex_value l with
      | Some x, Some y =>
          match Byte.of_N (16 * x + y) with
          | Some b => b :: fromhex s'
          | None => []
          end
      | _, _ => []
      end
  | _ => []
  end.

End Hashlib.

(** ** The environment of the fetcher *)

(** [requests.structures.CaseInsensitiveDict]: the store is keyed by
    the lowercased header name and keeps the name as it was set. *)
Module CaseInsensitiveDict.

Abbreviation t := (gmap string (string * string)).

(** [d[key] = value] *)
Definition set (key value : string) (d : t) : t :=
  <[Str.lower key := (key, value)]> d.

(** [d.get(key)] *)
Definition get (d : t) (key : string) : option string :=
  snd <$> d !! Str.lower key.

(** [d.get(key, default)] *)
Definition get_default (d : t) (key dflt : string) : string :=
  default dflt (get d key).

Definition of_list (l : list (string * string)) : t :=
  fold_left (fun d kv => set kv.1 kv.2 d) l ∅.

End CaseInsensitiveDict.

(** What [response.iter_content] produces: chunks of the body, or an
    exception raised by the transport while the body is read. *)
Inductive chunk_event :=
| Chunk (data : list byte)
| StreamError (e : exn).

(** [requests.Response], as far as the fetcher looks at it. *)
Record Response := {
  status_code : Z;
  headers : CaseInsensitiveDict.t;
  iter_content : list chunk_event
}.

(** What [with open(filepath, 'wb') as f: f.write(content)] does:
    [open] raises [e] and no file is created (an [OSError] of the file
    system, or the [ValueError] of a file name that holds a null
    character), or the file is created and [write] or the closing of
    the file raises [e] after [written] bytes, or the whole body is
    written. *)
Inductive write_result :=
| OpenFails (e : exn)
| WriteFails (e : exn) (written : nat)
| Written.

(** The world outside the process.  The network and the disk answer
    the [n]-th URL attempted in a run, so the same URL may be answered
    differently later in the run.  The two checks of [urlsplit] that
    depend on the release and on the Unicode tables are answered by the
    world as well. *)
Record World := {
  check_bracketed_netloc : string -> bool;
  check_nfkc_netloc : string -> bool;
  requests_get : nat -> string -> result Response;
  file_write : nat -> string -> list byte -> write_result
}.

(** ** [UbuntuImageFetcher] *)

Module Fetcher.

Import Urllib OsPath.

(** The mutable state a run touches: the attribute
    [self.downloaded_hashes], the files of the disk ([os.path.exists]
    holds of the paths in its domain), and the number of URLs whose
    request was issued so far, which indexes the [World]. *)
Record state := {
  downloaded_hashes : gset string;
  files : gmap string (list byte);
  requests : nat
}.

(** [self.max_file_size = 10 * 1024 * 1024] *)
Definition max_file_size : Z := 10 * 1024 * 1024.

Definition len (content : list byte) : Z := Z.of_nat (length content).

(** One line per message [download_image] prints. *)
Inductive outcome :=
| UnsafeUrlScheme                                  (* Unsafe URL scheme *)
| InvalidResponse                                  (* Invalid response from *)
| FileTooLarge                                     (* File too large *)
| AlreadyDownloaded                                (* Already downloaded *)
| SuccessfullyFetched (filename filepath : string) (* Successfully fetched / Image saved to *)
| ConnectionError (e : exn)                        (* Connection error for *)
| ErrorOccurred (e : exn).                         (* An error occurred with *)

(** [get_user_urls], [line] being what [input] returned. *)
Definition get_user_urls (line : string) : list string :=
  let urls_input := Str.strip line in
  if negb (Str.truthy urls_input) then []
  else
    let urls := List.map Str.strip (Str.split ","%char urls_input) in
    List.filter Str.truthy urls.

Section methods.

Variable W : World.

Definition is_safe_url (url : string) : result bool :=
  parsed ← urlparse (check_bracketed_netloc W) (check_nfkc_netloc W) url;
  Ok (bool_decide (scheme parsed ∈ ["http"; "https"])).

Definition content_map : gmap string string :=
  list_to_map
    [("image/jpeg", ".jpg"); ("image/jpg", ".jpg"); ("image/png", ".png");
     ("image/gif", ".gif"); ("image/webp", ".webp"); ("image/svg+xml", ".svg");
     ("image/bmp", ".bmp"); ("image/tiff", ".tiff")].

Definition get_extension_from_content_type (content_type : string) : string :=
  default ".jpg" (content_map !! content_type).

Definition get_filename_from_url (url content_type : string) : result string :=
  parsed ← urlparse (check_bracketed_netloc W) (check_nfkc_netloc W) url;
  let filename := basename (path parsed) in
  if negb (Str.truthy filename) then
    let extension := get_extension_from_content_type content_type in
    Ok ("ubuntu_image" +:+ extension)
  else
    let '(_, ext) := splitext filename in
    if negb (Str.truthy ext) then
      let extension := get_extension_from_content_type content_type in
      Ok (filename +:+ extension)
    else Ok filename.

(** Returns the answer and the set of hashes after the call. *)
Definition is_duplicate_image (hashes : gset string) (content : list byte)
  : bool * gset string :=
  let content_hash := Hashlib.md5_hexdigest content in
  if bool_decide (content_hash ∈ hashes) then (true, hashes)
  else (false, hashes ∪ {[content_hash]}).

Definition validate_response (response : Response) : result bool :=
  if negb (status_code response =? 200) then Ok false
  else
    let content_type :=
      Str.lower (CaseInsensitiveDict.get_default (headers response) "Content-Type" "") in
    if negb (Str.startswith "image/" content_type) then Ok false
    else
      match CaseInsensitiveDict.get (headers response) "Content-Length" with
      | Some content_length =>
          if Str.truthy content_length then
            n ← PyInt.int content_length;
            if max_file_size <? n then Ok false else Ok true
          else Ok true
      | None => Ok true
      end.

(** The loop over [response.iter_content]: [Ok None] is the early
    [return None] of an oversized body, [Ok (Some content)] the whole
    body. *)
Fixpoint read_chunks (events : list chunk_event) (content : list byte)
  : result (option (list byte)) :=
  match events with
  | [] => Ok (Some content)
  | Chunk chunk :: events' =>
      let content := content ++ chunk in
      if max_file_size <? len content then Ok None
      else read_chunks events' content
  | StreamError e :: _ => Raise e
  end.

(** The loop [while os.path.exists(filepath)]; every test of the
    condition takes one unit of [fuel]. *)
Fixpoint while_exists (fuel : nat) (fs : gmap string (list byte))
    (base ext filepath : string) (counter : nat) : option string :=
  match fuel with
  | O => None
  | S fuel' =>
      if bool_decide (filepath ∈ dom fs)
      then while_exists fuel' fs base ext
             (base +:+ "_" +:+ pretty counter +:+ ext) (S counter)
      else Some filepath
  end.

(** Lines 128-132.  The loop leaves within [size fs + 2] tests
    ([while_exists_terminates] below), so the fuel never runs out. *)
Definition unique_filepath (fs : gmap string (list byte)) (filepath : string)
  : string :=
  let counter := 1%nat in
  let '(base, ext) := splitext filepath in
  default filepath (while_exists (S (S (size fs))) fs base ext filepath counter).

Definition with_hashes (st : state) (hashes : gset string) : state :=
  {| downloaded_hashes := hashes; files := files st; requests := requests st |}.

Definition with_file (st : state) (filepath : string) (content : list byte)
  : state :=
  {| downloaded_hashes := downloaded_hashes st;
     files := <[filepath := content]> (files st);
     requests := requests st |}.

Definition next_request (st : state) : state :=
  {| downloaded_hashes := downloaded_hashes st; files := files st;
     requests := S (requests st) |}.

(** The body of the [try] statement of [download_image]: the state it
    leaves, and the value it returns with the line it prints or the
    exception it raises. *)
Definition try_body (st : state) (url : string)
  : state * result (outcome * option string) :=
  let n := requests st in
  let st := next_request st in
  match requests_get W n url with
  | Raise e => (st, Raise e)
  | Ok response =>
  match validate_response response with
  | Raise e => (st, Raise e)
  | Ok false => (st, Ok (InvalidResponse, None))
  | Ok true =>
  match read_chunks (iter_content response) [] with
  | Raise e => (st, Raise e)
  | Ok None => (st, Ok (FileTooLarge, None))
  | Ok (Some content) =>
  let '(duplicate, hashes) := is_duplicate_image (downloaded_hashes st) content in
  let st := with_hashes st hashes in
  if duplicate then (st, Ok (AlreadyDownloaded, None))
  else
    let content_type :=
      Str.lower (CaseInsensitiveDict.get_default (headers response) "Content-Type" "") in
    match get_filename_from_url url content_type with
    | Raise e => (st, Raise e)
    | Ok filename =>
        let filepath := join "Fetched_Images" filename in
        let filepath := unique_filepath (files st) filepath in
        match file_write W n filepath content with
        | OpenFails e => (st, Raise e)
        | WriteFails e written =>
            (with_file st filepath (take written content), Raise e)
        | Written =>
            (with_file st filepath content,
             Ok (SuccessfullyFetched filename filepath, Some filepath))
        end
    end
  end end end.

(** The two [except] clauses. *)
Definition handler (e : exn) : outcome :=
  match e with
  | RequestException => ConnectionError e
  | _ => ErrorOccurred e
  end.

(** [download_image]: the scheme check stands before the [try], so an
    exception of [is_safe_url] leaves the method. *)
Definition download_image (st : state) (url : string)
  : result (state * (outcome * option string)) :=
  safe ← is_safe_url url;
  if negb safe then Ok (st, (UnsafeUrlScheme, None))
  else
    let '(st, r) := try_body st url in
    match r with
    | Ok v => Ok (st, v)
    | Raise e => Ok (st, (handler e, None))
    end.

(** Truth value of the [Optional[str]] that [download_image] returns. *)
Definition truthy (r : option string) : bool :=
  match r with
  | Some s => Str.truthy s
  | None => false
  end.

(** The loop of [main] over the URLs: the state it leaves, the lines
    printed, and [success_count] unless an exception ended the loop. *)
Fixpoint for_urls (urls : list string) (st : state) (success_count : Z)
  : state * list outcome * result Z :=
  match urls with
  | [] => (st, [], Ok success_count)
  | url :: urls' =>
      match download_image st url with
      | Raise e => (st, [], Raise e)
      | Ok (st, (line, r)) =>
          let success_count :=
            if truthy r then success_count + 1 else success_count in
          let '(st, lines, n) := for_urls urls' st success_count in
          (st, line :: lines, n)
      end
  end.

(** What [main] reports at its end. *)
Inductive report :=
| NoUrlsProvided
| Summary (success_count total : Z).

(** [main] from line 159 on, [urls] being what [get_user_urls]
    returned. *)
Definition main (st : state) (urls : list string)
  : state * list outcome * result report :=
  match urls with
  | [] => (st, [], Ok NoUrlsProvided)
  | _ =>
      let '(st, lines, r) := for_urls urls st 0 in
      (st, lines, success_count ← r; Ok (Summary success_count (Z.of_nat (length urls))))
  end.

End methods.

End Fetcher.

(** * Vocabulary of the properties *)

Import Fetcher.

(** The lines that report a saved image. *)
Definition is_saved (line : outcome) : bool :=
  match line with
  | SuccessfullyFetched _ _ => true
  | _ => false
  end.

Definition saved_count (lines : list outcome) : Z :=
  Z.of_nat (length (filter (fun line => is_saved line = true) lines)).

(** The path tried for a value of the counter. *)
Definition candidate (base ext : string) (counter : nat) : string :=
  base +:+ "_" +:+ pretty counter +:+ ext.

(** The content type as [download_image] and [validate_response] read
    it. *)
Definition content_type_of (response : Response) : string :=
  Str.lower (CaseInsensitiveDict.get_default (headers response) "Content-Type" "").

(** The request for [url] is answered, the response passes
    [validate_response] and its chunks add up to [content] without
    crossing the ceiling: the download reaches the duplicate check. *)
Definition delivers (W : World) (st : state) (url : string)
    (response : Response) (content : list byte) : Prop :=
  is_safe_url W url = Ok true
  /\ requests_get W (requests st) url = Ok response
  /\ validate_response response = Ok true
  /\ read_chunks (iter_content response) [] = Ok (Some content).

(** The response has a [Content-Type] header whose value, lowercased,
    starts with [image/]. *)
Definition has_image_content_type (response : Response) : Prop :=
  exists v, CaseInsensitiveDict.get (headers response) "Content-Type" = Some v
            /\ Str.startswith "image/" (Str.lower v) = true.

(** The three rules the way the specification words them: the third
    asks nothing of a [Content-Length] that does not parse. *)
Definition accepted_as_specified (response : Response) : Prop :=
  status_code response = 200
  /\ has_image_content_type response
  /\ forall v n,
       CaseInsensitiveDict.get (headers response) "Content-Length" = Some v ->
       PyInt.int v = Ok n -> n <= max_file_size.

(** The third rule as the code has it: no header, an empty one, or one
    that [int] parses to a length within the ceiling. *)
Definition declared_length_within (response : Response) : Prop :=
  let declared := CaseInsensitiveDict.get (headers response) "Content-Length" in
  declared = None
  \/ declared = Some EmptyString
  \/ exists v n, declared = Some v /\ PyInt.int v = Ok n /\ n <= max_file_size.

(** A response that declares an image and a length that is no number. *)
Definition response_bad_length : Response :=
  {| status_code := 200;
     headers := CaseInsensitiveDict.of_list
                  [("Content-Type", "image/png"); ("Content-Length", "abc")];
     iter_content := [Chunk (list_byte_of_string "abc")] |}.

(** The content types of the table. *)
Definition mapped_content_types : list string :=
  ["image/jpeg"; "image/jpg"; "image/png"; "image/gif"; "image/webp";
   "image/svg+xml"; "image/bmp"; "image/tiff"].

(** * Worked examples *)

(** A response with status 200, the given content type and the body in
    one chunk. *)
Definition image_response (content_type : string) (body : list byte) : Response :=
  {| status_code := 200;
     headers := CaseInsensitiveDict.of_list [("Content-Type", content_type)];
     iter_content := [Chunk body] |}.

(** A network that serves the listed pages and refuses every other
    connection. *)
Fixpoint serve (pages : list (string * Response)) (url : string)
  : result Response :=
  match pages with
  | [] => Raise RequestException
  | (u, response) :: pages' =>
      if String.eqb u url then Ok response else serve pages' url
  end.

Definition world_of (pages : list (string * Response))
    (disk : nat -> string -> list byte -> write_result) : World :=
  {| check_bracketed_netloc := fun _ => true;
     check_nfkc_netloc := fun _ => true;
     requests_get := fun _ => serve pages;
     file_write := disk |}.

Definition healthy_disk : nat -> string -> list byte -> write_result :=
  fun _ _ _ => Written.

(** A fresh fetcher in front of an empty directory. *)
Definition fresh : state :=
  {| downloaded_hashes := ∅; files := ∅; requests := 0 |}.

(** The state a batch leaves. *)
Definition state_after (W : World) (st : state) (urls : list string) : state :=
  (for_urls W urls st 0).1.1.

(** The scenario of the specification: an image, a URL with another
    scheme, and the image again. *)
Definition scenario_world : World :=
  world_of
    [("http://example.test/a.png",
      image_response "image/png" (list_byte_of_string "abc"))]
    healthy_disk.

Definition scenario_urls : list string :=
  ["http://example.test/a.png"; "ftp://example.test/b.jpg";
   "http://example.test/a.png"].

(** Three sites that serve different images under the name
    [image.jpg]. *)
Definition gallery_world : World :=
  world_of
    [("http://a.test/image.jpg",
      image_response "image/jpeg" (list_byte_of_string "one"));
     ("http://b.test/image.jpg",
      image_response "image/jpeg" (list_byte_of_string "two"));
     ("http://c.test/image.jpg",
      image_response "image/jpeg" (list_byte_of_string "three"))]
    healthy_disk.

(** A body of exactly [max_file_size] bytes, and a response that sends
    it, then one more byte, then breaks. *)
Abbreviation ten_mebibytes := (replicate (Z.to_nat max_file_size) x00).

Definition oversized_response : Response :=
  {| status_code := 200;
     headers := CaseInsensitiveDict.of_list [("Content-Type", "image/png")];
     iter_content :=
       (Chunk <$> [ten_mebibytes]) ++ Chunk [x00] :: [StreamError OtherException] |}.

Definition oversized_world : World :=
  {| check_bracketed_netloc := fun _ => true;
     check_nfkc_netloc := fun _ => true;
     requests_get := fun _ url =>
       if String.eqb url "http://example.test/big.png"
       then Ok oversized_response else Raise RequestException;
     file_write := healthy_disk |}.

(** Two sites with the same image; a healthy disk, and a disk on which
    the first [open] fails. *)
Definition mirror_pages : list (string * Response) :=
  [("http://example.test/a.png",
    image_response "image/png" (list_byte_of_string "abc"));
   ("http://mirror.test/copy.png",
    image_response "image/png" (list_byte_of_string "abc"))].

Definition mirror_world : World := world_of mirror_pages healthy_disk.

Definition flaky_world : World :=
  world_of mirror_pages (fun n _ _ => if Nat.eqb n 0 then OpenFails OSError else Written).

(** A disk on which the first [write] raises after one byte. *)
Definition torn_world : World :=
  world_of mirror_pages
    (fun n _ _ => if Nat.eqb n 0 then WriteFails OSError 1 else Written).

(** A response that declares the length of its oversized body. *)
Definition declared_oversized_response : Response :=
  {| status_code := 200;
     headers := CaseInsensitiveDict.of_list
                  [("Content-Type", "image/png"); ("Content-Length", "10485761")];
     iter_content := (Chunk <$> [ten_mebibytes]) ++ [Chunk [x00]] |}.

Definition declared_oversized_world : World :=
  {| check_bracketed_netloc := fun _ => true;
     check_nfkc_netloc := fun _ => true;
     requests_get := fun _ url =>
       if String.eqb url "http://example.test/big.png"
       then Ok declared_oversized_response else Raise RequestException;
     file_write := healthy_disk |}.

(** A response whose declared length does not parse; one whose
    declared length is empty. *)
Definition bad_length_world : World :=
  world_of [("http://example.test/a.png", response_bad_length)] healthy_disk.

Definition response_empty_length : Response :=
  {| status_code := 200;
     headers := CaseInsensitiveDict.of_list
                  [("Content-Type", "image/png"); ("Content-Length", "")];
     iter_content := [Chunk (list_byte_of_string "abc")] |}.

Definition empty_length_world : World :=
  world_of [("http://example.test/a.png", response_empty_length)] healthy_disk.

(** Two bodies of 128 bytes that differ in six bytes and have the same
    MD5 digest (Wang and Yu, 2004). *)
Definition collision_a : list byte :=
  Hashlib.fromhex
    ("d131dd02c5e6eec4693d9a0698aff95c2fcab58712467eab4004583eb8fb7f89"
     +:+ "55ad340609f4b30283e488832571415a085125e8f7cdc99fd91dbdf280373c5b"
     +:+ "d8823e3156348f5bae6dacd436c919c6dd53e2b487da03fd02396306d248cda0"
     +:+ "e99f33420f577ee8ce54b67080a80d1ec69821bcb6a8839396f9652b6ff72a70").

Definition collision_b : list byte :=
  Hashlib.fromhex
    ("d131dd02c5e6eec4693d9a0698aff95c2fcab50712467eab4004583eb8fb7f89"
     +:+ "55ad340609f4b30283e4888325f1415a085125e8f7cdc99fd91dbd7280373c5b"
     +:+ "d8823e3156348f5bae6dacd436c919c6dd53e23487da03fd02396306d248cda0"
     +:+ "e99f33420f577ee8ce54b67080280d1ec69821bcb6a8839396f965ab6ff72a70").

Definition collision_world : World :=
  world_of
    [("http://example.test/a.png", image_response "image/png" collision_a);
     ("http://example.test/b.png", image_response "image/png" collision_b)]
    healthy_disk.

(** The states the worked examples pass through. *)
Definition gallery_one : state :=
  state_after gallery_world fresh ["http://a.test/image.jpg"].

Definition gallery_two : state :=
  state_after gallery_world fresh
    ["http://a.test/image.jpg"; "http://b.test/image.jpg"].

Definition gallery_three : state :=
  state_after gallery_world gallery_two ["http://c.test/image.jpg"].

Definition mirror_one : state :=
  state_after mirror_world fresh ["http://example.test/a.png"].

Definition flaky_one : state :=
  state_after flaky_world fresh ["http://example.test/a.png"].

Definition torn_one : state :=
  state_after torn_world fresh ["http://example.test/a.png"].

Definition collision_one : state :=
  state_after collision_world fresh ["http://example.test/a.png"].

Definition empty_length_one : state :=
  state_after empty_length_world fresh ["http://example.test/a.png"].

(** The scenario from the line typed to the lines printed. *)
Definition scenario_line : string :=
  "  http://example.test/a.png, ftp://example.test/b.jpg ,,http://example.test/a.png ".

Definition scenario_pieces : list string :=
  ["  http://example.test/a.png"; " ftp://example.test/b.jpg "; "";
   "http://example.test/a.png "].

Definition scenario_printed : list outcome :=
  [SuccessfullyFetched "a.png" "Fetched_Images/a.png"; UnsafeUrlScheme;
   AlreadyDownloaded].

Definition scenario_end : state := state_after scenario_world fresh scenario_urls.

(** The gallery in one batch. *)
Definition gallery_urls : list string :=
  ["http://a.test/image.jpg"; "http://b.test/image.jpg";
   "http://c.test/image.jpg"].

Definition gallery_printed : list outcome :=
  [SuccessfullyFetched "image.jpg" "Fetched_Images/image.jpg";
   SuccessfullyFetched "image.jpg" "Fetched_Images/image_1.jpg";
   SuccessfullyFetched "image.jpg" "Fetched_Images/image_2.jpg"].

Definition gallery_end : state := state_after gallery_world fresh gallery_urls.

(** * Further vocabulary *)

(** The path a line reports as saved. *)
Definition saved_path (line : outcome) : option string :=
  match line with
  | SuccessfullyFetched _ filepath => Some filepath
  | _ => None
  end.

Definition saved_paths (lines : list outcome) : list string :=
  omap saved_path lines.

(** The lines of URLs for which a request was issued: all but those
    refused for their scheme. *)
Definition was_requested (line : outcome) : bool :=
  match line with
  | UnsafeUrlScheme => false
  | _ => true
  end.

(** The lines of the two [except] clauses: "Connection error" and "An
    error occurred". *)
Definition is_error_line (line : outcome) : bool :=
  match line with
  | ConnectionError _ | ErrorOccurred _ => true
  | _ => false
  end.

(** Neither [open] nor [write] raises at the request the fetcher is
    about to issue, whatever the path and the body. *)
Definition write_succeeds (W : World) (st : state) : Prop :=
  forall filepath content,
    file_write W (requests st) filepath content = Written.

(** The URL as [urlsplit] reads it: leading control characters and
    spaces stripped, tabs and line ends removed. *)
Definition cleaned (url : string) : string :=
  Urllib.remove_unsafe (Str.lstrip Urllib.is_c0_control_or_space url).

(** The scheme [urlsplit] reads off a cleaned URL: the text before the
    first colon, lowercased, when it starts with an ASCII letter and is
    made of scheme characters; no scheme otherwise. *)
Definition scheme_text (url : string) : string :=
  let i := Str.find ":" url in
  if (0 <? i)
     && Str.forallb Str.is_ascii_alpha (Str.slice_to url 1)
     && Str.forallb Urllib.is_scheme_char (Str.slice_to url i)
  then Str.lower (Str.slice_to url i)
  else EmptyString.

(** The URL holds no square bracket. *)
Definition bracket_free (url : string) : Prop :=
  Str.contains "[" url = false /\ Str.contains "]" url = false.

(** A URL as [get_user_urls] returns them: not empty, no comma, no
    white space at either end. *)
Definition clean_url (url : string) : Prop :=
  url <> EmptyString
  /\ Str.contains ","%char url = false
  /\ Str.strip url = url.

(** The text is ASCII: [s.isascii()]. *)
Definition ascii_text (s : string) : Prop :=
  Str.forallb Str.is_ascii s = true.

(** The text holds no comma. *)
Definition comma_free (piece : string) : Prop :=
  Str.contains ","%char piece = false.

(** White space or a comma. *)
Definition is_space_or_comma (a : ascii) : bool :=
  Str.is_space a || Ascii.eqb a ","%char.

(** * Properties *)

(** ** The model of MD5 *)

(** RFC 1321 test suite. *)
Example md5_test_empty :
  Hashlib.md5_hexdigest [] = "d41d8cd98f00b204e9800998ecf8427e".
Proof. vm_compute. reflexivity. Qed.

Example md5_test_abc :
  Hashlib.md5_hexdigest (list_byte_of_string "abc")
  = "900150983cd24fb0d6963f7d28e17f72".
Proof. vm_compute. reflexivity. Qed.

Example md5_test_alphabet :
  Hashlib.md5_hexdigest
    (list_byte_of_string
       "12345678901234567890123456789012345678901234567890123456789012345678901234567890")
  = "57edf4a22be3c955ac49da2e2107b67a".
Proof. vm_compute. reflexivity. Qed.

(** ** The scheme check *)

(** What [is_safe_url] answers when the URL parses. *)
Lemma is_safe_url_parsed W url parsed :
  Urllib.urlparse (check_bracketed_netloc W) (check_nfkc_netloc W) url = Ok parsed ->
  is_safe_url W url
  = Ok (bool_decide (Urllib.scheme parsed = "http" \/ Urllib.scheme parsed = "https")).
Proof.
  intros Hp. unfold is_safe_url. rewrite Hp. cbn. f_equal.
  apply bool_decide_ext. rewrite !elem_of_cons, elem_of_nil. tauto.
Qed.

(** [is_safe_url] raises exactly when [urlparse] does. *)
Lemma is_safe_url_raises W url e :
  is_safe_url W url = Raise e <->
  Urllib.urlparse (check_bracketed_netloc W) (check_nfkc_netloc W) url = Raise e.
Proof.
  unfold is_safe_url.
  destruct (Urllib.urlparse _ _ url) as [p|e']; cbn; split; congruence.
Qed.

(** The scheme is compared in lower case: the capitals of the URL do
    not matter. *)
Example is_safe_url_upper_case W :
  is_safe_url W "HTTP://example.test/a.png" = Ok true
  /\ is_safe_url W "hTTpS://example.test/a.png" = Ok true
  /\ is_safe_url W "ftp://example.test/b.jpg" = Ok false
  /\ is_safe_url W "httpx://example.test/b.jpg" = Ok false
  /\ is_safe_url W "not a url" = Ok false.
Proof. repeat split; vm_compute; reflexivity. Qed.

(** C2, at the input that breaks it: a URL whose network location
    opens a bracket that is never closed makes [urlparse] raise
    [ValueError], and [is_safe_url], which does not catch it, raises
    too instead of answering [False]. *)
Theorem is_safe_url_unbalanced_bracket W :
  is_safe_url W "http://[" = Raise ValueError.
Proof. vm_compute. reflexivity. Qed.

(** ** Containment of failures *)

(** The [try] statement turns every exception of its body into a
    printed line: [download_image] returns whenever the scheme check
    does. *)
Lemma download_image_returns W st url safe :
  is_safe_url W url = Ok safe ->
  exists st' line r, download_image W st url = Ok (st', (line, r)).
Proof.
  intros Hs. unfold download_image. rewrite Hs. cbn.
  destruct safe; cbn; [|eauto].
  destruct (try_body W st url) as [st' [[line r]|e]]; eauto.
Qed.

(** An exception leaves [download_image] only from the scheme check. *)
Lemma download_image_raises W st url e :
  download_image W st url = Raise e <-> is_safe_url W url = Raise e.
Proof.
  unfold download_image.
  destruct (is_safe_url W url) as [safe|e']; cbn; [|split; congruence].
  split; [|discriminate]. destruct safe; cbn; [|discriminate].
  destruct (try_body W st url) as [st' [[line r]|e'']]; discriminate.
Qed.

(** An exception of the scheme check ends the loop of [main] where it
    is raised: the lines printed are those of the URLs before it. *)
Lemma for_urls_stops_at_exception W before url after e : forall st n,
  Forall (fun u => exists safe, is_safe_url W u = Ok safe) before ->
  is_safe_url W url = Raise e ->
  exists st' lines,
    for_urls W (before ++ url :: after) st n = (st', lines, Raise e)
    /\ length lines = length before.
Proof.
  induction before as [|u before IH]; intros st n Hall Hraise; simpl.
  - apply download_image_raises with (st := st) in Hraise. rewrite Hraise.
    by exists st, [].
  - inversion Hall as [|? ? [safe Hs] Hall']; subst.
    destruct (download_image_returns W st u safe Hs) as (st1 & line & r & ->).
    destruct (IH st1 (if truthy r then n + 1 else n) Hall' Hraise)
      as (st2 & lines & -> & Hlen).
    exists st2, (line :: lines). split; [done|]. simpl. by rewrite Hlen.
Qed.

(** C1, at the input that breaks it: the scheme check of
    [download_image] stands outside the [try], so the [ValueError] of an
    unparsable URL leaves [download_image] and ends the loop of [main];
    the URLs after it are never processed and no summary is reported. *)
Theorem unparsable_url_aborts_batch W st urls :
  download_image W st "http://[" = Raise ValueError
  /\ main W st ("http://[" :: urls) = (st, [], Raise ValueError).
Proof. split; vm_compute; reflexivity. Qed.

(** ** The batch summary *)

Lemma truthy_app_r s1 s2 : Str.truthy s2 = true -> Str.truthy (s1 +:+ s2) = true.
Proof. intros H. destruct s1; [exact H | reflexivity]. Qed.

Lemma truthy_app_l s1 s2 : Str.truthy s1 = true -> Str.truthy (s1 +:+ s2) = true.
Proof. intros H. destruct s1; [discriminate H | reflexivity]. Qed.

Lemma truthy_join a b : Str.truthy a = true -> Str.truthy (OsPath.join a b) = true.
Proof.
  intros Ha. unfold OsPath.join.
  destruct (Str.startswith "/" b) eqn:Hb.
  - destruct b; [discriminate Hb | reflexivity].
  - destruct (_ || _); by apply truthy_app_l.
Qed.

Lemma while_exists_truthy fuel fs base ext filepath counter q :
  Str.truthy filepath = true ->
  while_exists fuel fs base ext filepath counter = Some q ->
  Str.truthy q = true.
Proof.
  revert filepath counter.
  induction fuel as [|fuel IH]; intros filepath counter Hp; simpl; [done|].
  case_bool_decide.
  - apply IH. apply truthy_app_r. reflexivity.
  - congruence.
Qed.

Lemma truthy_unique_filepath fs filepath :
  Str.truthy filepath = true -> Str.truthy (unique_filepath fs filepath) = true.
Proof.
  intros Hp. unfold unique_filepath.
  destruct (OsPath.splitext filepath) as [base ext].
  destruct (while_exists _ _ _ _ _ _) as [q|] eqn:Hq; simpl; [|done].
  by eapply while_exists_truthy.
Qed.

(** The value [download_image] returns is true in the sense of [if]
    exactly when the line it printed reports a saved image: the path
    of a saved image is never the empty string. *)
Lemma download_image_truthy W st url st' line r :
  download_image W st url = Ok (st', (line, r)) ->
  truthy r = is_saved line.
Proof.
  unfold download_image, try_body, is_duplicate_image.
  destruct (is_safe_url W url) as [[]|]; cbn; intros Hd;
    repeat case_match; simplify_eq; try reflexivity;
    try (by match goal with |- _ = is_saved (handler ?e) => destruct e end).
  cbn. apply truthy_unique_filepath, truthy_join. reflexivity.
Qed.

Lemma for_urls_summary W urls : forall st n st' lines m,
  for_urls W urls st n = (st', lines, Ok m) ->
  m = n + saved_count lines /\ length lines = length urls.
Proof.
  induction urls as [|url urls IH]; intros st n st' lines m; simpl.
  - intros [= <- <- <-]. unfold saved_count. simpl. lia.
  - destruct (download_image W st url) as [[st1 [line r]]|] eqn:Hd; [|done].
    destruct (for_urls W urls st1 _) as [[st2 lines2] res] eqn:Hf.
    intros [= <- <- ->].
    apply IH in Hf as [-> Hlen].
    apply download_image_truthy in Hd. rewrite Hd.
    unfold saved_count. simpl. rewrite Hlen. split; [|done].
    rewrite filter_cons. destruct (is_saved line) eqn:Hl.
    + rewrite decide_True by done. simpl length. lia.
    + rewrite decide_False by congruence. lia.
Qed.

(** The loop completes when every URL of the batch parses. *)
Lemma for_urls_returns W urls : forall st n,
  Forall (fun url => exists safe, is_safe_url W url = Ok safe) urls ->
  exists st' lines m, for_urls W urls st n = (st', lines, Ok m).
Proof.
  induction urls as [|url urls IH]; intros st n Hall; simpl; [eauto|].
  inversion Hall as [|? ? [safe Hs] Hall']; subst.
  destruct (download_image_returns W st url safe Hs) as (st1 & line & r & ->).
  destruct (IH st1 (if truthy r then n + 1 else n) Hall') as (st2 & lines & m & ->).
  eauto.
Qed.

(** C8: for a batch that is not empty and whose URLs all parse,
    [main] reports a summary; its first number is the number of URLs
    for which a saved image was reported, its second the number of
    URLs of the batch, and one line was printed per URL. *)
Theorem batch_summary_counts_saved W st urls :
  urls <> [] ->
  Forall (fun url => exists safe, is_safe_url W url = Ok safe) urls ->
  exists st' lines,
    main W st urls
    = (st', lines, Ok (Summary (saved_count lines) (Z.of_nat (length urls))))
    /\ length lines = length urls.
Proof.
  intros Hne Hall. unfold main.
  destruct urls as [|url urls]; [done|].
  destruct (for_urls_returns W (url :: urls) st 0 Hall) as (st' & lines & m & Hf).
  rewrite Hf. apply for_urls_summary in Hf as [-> Hlen].
  exists st', lines. split; [|done]. cbn. do 3 f_equal.
Qed.

(** ** Collision resolution *)

Lemma list_ascii_of_string_app s1 s2 :
  list_ascii_of_string (s1 +:+ s2)
  = list_ascii_of_string s1 ++ list_ascii_of_string s2.
Proof. induction s1 as [|a s1 IH]; [done|]. cbn. by rewrite <- IH. Qed.

Lemma string_app_inv_tail s1 s2 t : s1 +:+ t = s2 +:+ t -> s1 = s2.
Proof.
  intros H. apply (f_equal list_ascii_of_string) in H.
  rewrite !list_ascii_of_string_app in H. apply app_inv_tail in H.
  apply (f_equal string_of_list_ascii) in H.
  by rewrite !string_of_list_ascii_of_string in H.
Qed.

Lemma candidate_inj base ext : Inj (=) (=) (candidate base ext).
Proof.
  intros j k H. unfold candidate in H.
  apply (inj (String.app base)) in H. apply (inj (String.app "_")) in H.
  apply string_app_inv_tail in H. by apply (inj pretty) in H.
Qed.

(** When the fuel runs out, every path tested was taken. *)
Lemma while_exists_None fuel fs base ext : forall filepath counter,
  while_exists fuel fs base ext filepath counter = None ->
  forall k, (counter <= k < counter + pred fuel)%nat ->
            candidate base ext k ∈ dom fs.
Proof.
  induction fuel as [|fuel IH]; intros filepath counter; simpl; [lia|].
  case_bool_decide; [|done]. intros Hw k Hk.
  destruct fuel as [|fuel]; [lia|].
  destruct (decide (k = counter)) as [->|Hne].
  - simpl in Hw. fold (candidate base ext counter) in Hw.
    by case_bool_decide.
  - eapply IH; [exact Hw|]. simpl. lia.
Qed.

(** The loop ends: a directory of [size fs] entries cannot hold
    [size fs + 1] candidates. *)
Lemma while_exists_terminates fs base ext filepath counter :
  is_Some (while_exists (S (S (size fs))) fs base ext filepath counter).
Proof.
  destruct (while_exists _ _ _ _ _ _) as [q|] eqn:Hw; [by eexists|].
  exfalso. pose proof (while_exists_None _ _ _ _ _ _ Hw) as Hin.
  set (l := candidate base ext <$> seq counter (S (size fs))).
  assert (NoDup l) as Hnd
    by (apply (@NoDup_fmap_2 _ _ _ (candidate_inj base ext)), NoDup_seq).
  assert (list_to_set l ⊆ dom fs) as Hsub.
  { intros p. rewrite elem_of_list_to_set. unfold l.
    rewrite list_elem_of_fmap. intros (k & -> & Hk).
    apply Hin. apply elem_of_seq in Hk. simpl. lia. }
  apply subseteq_size in Hsub.
  rewrite size_list_to_set, size_dom in Hsub by done.
  unfold l in Hsub. rewrite length_fmap, length_seq in Hsub. lia.
Qed.

(** What the loop returns: the path itself when it is free, and
    otherwise the candidate of the least counter whose path is free. *)
Lemma while_exists_Some fuel fs base ext : forall filepath counter q,
  while_exists fuel fs base ext filepath counter = Some q ->
  (q ∉ dom fs)
  ∧ ((filepath ∉ dom fs) ∧ q = filepath
     ∨ (filepath ∈ dom fs)
       ∧ ∃ k, (counter <= k)%nat ∧ q = candidate base ext k
         ∧ ∀ j, (counter <= j < k)%nat → candidate base ext j ∈ dom fs).
Proof.
  induction fuel as [|fuel IH]; intros filepath counter q; simpl; [done|].
  case_bool_decide as Hin.
  - intros Hw. apply IH in Hw as [Hq Hw]. split; [done|]. right. split; [done|].
    destruct Hw as [[Hfree ->]|(Hin' & k & Hk & -> & Hlt)].
    + exists counter. split; [lia|]. split; [done|]. lia.
    + exists k. split; [lia|]. split; [done|]. intros j Hj.
      destruct (decide (j = counter)) as [->|]; [done|]. apply Hlt. lia.
  - intros [= <-]. auto.
Qed.

Lemma unique_filepath_spec fs filepath :
  let q := unique_filepath fs filepath in
  let '(base, ext) := OsPath.splitext filepath in
  (q ∉ dom fs)
  ∧ ((filepath ∉ dom fs) ∧ q = filepath
     ∨ (filepath ∈ dom fs)
       ∧ ∃ k, (1 <= k)%nat ∧ q = candidate base ext k
         ∧ ∀ j, (1 <= j < k)%nat → candidate base ext j ∈ dom fs).
Proof.
  unfold unique_filepath.
  destruct (OsPath.splitext filepath) as [base ext]. cbv zeta.
  destruct (while_exists_terminates fs base ext filepath 1) as [q Hq].
  rewrite Hq. simpl. by apply while_exists_Some in Hq.
Qed.

Lemma unique_filepath_fresh fs filepath :
  fs !! unique_filepath fs filepath = None.
Proof.
  pose proof (unique_filepath_spec fs filepath) as H. cbv zeta in H.
  destruct (OsPath.splitext filepath). apply not_elem_of_dom, H.
Qed.

(** ** The paths through [download_image] *)

(** A URL that passes the scheme check has a file name. *)
Lemma get_filename_from_url_returns W url safe content_type :
  is_safe_url W url = Ok safe ->
  exists filename, get_filename_from_url W url content_type = Ok filename.
Proof.
  unfold is_safe_url, get_filename_from_url.
  destruct (Urllib.urlparse _ _ url) as [parsed|]; cbn; [|done]. intros _.
  destruct (negb _); [eauto|].
  destruct (OsPath.splitext _) as [base ext]. destruct (negb _); eauto.
Qed.

Lemma download_image_duplicate W st url response content :
  delivers W st url response content ->
  Hashlib.md5_hexdigest content ∈ downloaded_hashes st ->
  download_image W st url = Ok (next_request st, (AlreadyDownloaded, None)).
Proof.
  intros (Hs & Hg & Hv & Hr) Hin.
  unfold download_image, try_body, is_duplicate_image.
  rewrite Hs. cbn. rewrite Hg, Hv, Hr.
  rewrite bool_decide_eq_true_2 by done.
  by destruct st.
Qed.

(** A body whose hash is new is recorded, then named and written; the
    hash stays recorded whatever the write does. *)
Lemma download_image_new W st url response content :
  delivers W st url response content ->
  Hashlib.md5_hexdigest content ∉ downloaded_hashes st ->
  exists filename,
    get_filename_from_url W url (content_type_of response) = Ok filename
    /\ let filepath :=
         unique_filepath (files st) (OsPath.join "Fetched_Images" filename) in
       let st1 :=
         with_hashes (next_request st)
           (downloaded_hashes st ∪ {[Hashlib.md5_hexdigest content]}) in
       download_image W st url
       = Ok match file_write W (requests st) filepath content with
            | OpenFails e => (st1, (handler e, None))
            | WriteFails e written =>
                (with_file st1 filepath (take written content),
                 (handler e, None))
            | Written =>
                (with_file st1 filepath content,
                 (SuccessfullyFetched filename filepath, Some filepath))
            end.
Proof.
  intros (Hs & Hg & Hv & Hr) Hnin.
  destruct (get_filename_from_url_returns W url true (content_type_of response) Hs)
    as [filename Hf].
  exists filename. split; [done|]. cbv zeta.
  unfold download_image, try_body, is_duplicate_image.
  rewrite Hs. cbn. rewrite Hg, Hv, Hr.
  rewrite bool_decide_eq_false_2 by done.
  fold (content_type_of response). rewrite Hf. cbn.
  by destruct (file_write W _ _ content).
Qed.

(** Every path through [download_image] keeps the hashes recorded and
    the files present, contents included. *)
Lemma download_image_monotone W st url st' line r :
  download_image W st url = Ok (st', (line, r)) ->
  downloaded_hashes st ⊆ downloaded_hashes st' /\ files st ⊆ files st'.
Proof.
  unfold download_image, try_body, is_duplicate_image.
  destruct (is_safe_url W url) as [[]|]; cbn; intros Hd;
    repeat case_match; simplify_eq; cbn;
    (split; [try done; apply union_subseteq_l | try done]);
    apply insert_subseteq, unique_filepath_fresh.
Qed.

Lemma for_urls_monotone W urls : forall st n st' lines res,
  for_urls W urls st n = (st', lines, res) ->
  downloaded_hashes st ⊆ downloaded_hashes st' /\ files st ⊆ files st'.
Proof.
  induction urls as [|url urls IH]; intros st n st' lines res; simpl.
  - by intros [= <- <- <-].
  - destruct (download_image W st url) as [[st1 [line r]]|] eqn:Hd.
    + destruct (for_urls W urls st1 _) as [[st2 lines2] res2] eqn:Hf.
      intros [= <- <- <-].
      apply download_image_monotone in Hd as [Hh1 Hf1].
      apply IH in Hf as [Hh2 Hf2].
      split; by etrans.
    + by intros [= <- <- <-].
Qed.

(** A saved image went to the path the loop chose, which held no file. *)
Lemma download_image_saved W st url st' filename filepath r :
  download_image W st url = Ok (st', (SuccessfullyFetched filename filepath, r)) ->
  filepath = unique_filepath (files st) (OsPath.join "Fetched_Images" filename)
  /\ r = Some filepath
  /\ exists content, files st' = <[filepath := content]> (files st).
Proof.
  unfold download_image, try_body, is_duplicate_image.
  destruct (is_safe_url W url) as [[]|]; cbn; intros Hd;
    repeat case_match; simplify_eq; cbn;
    try (by match goal with H : handler ?e = _ |- _ => destruct e end).
  eauto.
Qed.

(** C6: whatever [download_image] does, the files present before are
    present after with the same contents.  When it saves an image, the
    path written is the target [Fetched_Images/<filename>] itself when
    that is free, and otherwise [{base}_{counter}{ext}] for the least
    counter from 1 on whose path is free; it held no file before.  With
    [image.jpg] present the image goes to [image_1.jpg], and with both
    present to [image_2.jpg]. *)
Theorem saved_path_is_first_free W st url st' line r :
  download_image W st url = Ok (st', (line, r)) ->
  files st ⊆ files st'
  ∧ ∀ filename filepath,
      line = SuccessfullyFetched filename filepath →
      let target := OsPath.join "Fetched_Images" filename in
      let fs := files st in
      r = Some filepath
      ∧ fs !! filepath = None
      ∧ (∃ content, files st' = <[filepath := content]> fs)
      ∧ ((target ∉ dom fs) ∧ filepath = target
         ∨ (target ∈ dom fs)
           ∧ ∃ k, (1 <= k)%nat
               ∧ filepath = candidate (OsPath.splitext target).1
                                      (OsPath.splitext target).2 k
               ∧ ∀ j, (1 <= j < k)%nat →
                      candidate (OsPath.splitext target).1
                                (OsPath.splitext target).2 j ∈ dom fs)
      ∧ (filename = "image.jpg" →
         "Fetched_Images/image.jpg" ∈ dom fs →
         ("Fetched_Images/image_1.jpg" ∉ dom fs →
          filepath = "Fetched_Images/image_1.jpg")
         ∧ ("Fetched_Images/image_1.jpg" ∈ dom fs →
            "Fetched_Images/image_2.jpg" ∉ dom fs →
            filepath = "Fetched_Images/image_2.jpg")).
Proof.
  intros Hd. split; [eapply download_image_monotone, Hd|].
  intros filename filepath ->. cbv zeta.
  apply download_image_saved in Hd as (Hp & -> & Hfs).
  pose proof (unique_filepath_spec (files st)
                (OsPath.join "Fetched_Images" filename)) as Hspec.
  cbv zeta in Hspec. rewrite <- Hp in Hspec.
  destruct (OsPath.splitext (OsPath.join "Fetched_Images" filename))
    as [base ext] eqn:Hsplit.
  destruct Hspec as [Hfresh Hcases].
  split; [reflexivity|]. split; [apply not_elem_of_dom, Hfresh|].
  split; [exact Hfs|]. split; [exact Hcases|].
  intros -> Hin. vm_compute in Hsplit. injection Hsplit as <- <-.
  destruct Hcases as [[Hfree _]|(_ & k & Hk & Hq & Hlt)]; [contradiction|].
  assert (candidate "Fetched_Images/image" ".jpg" 1 = "Fetched_Images/image_1.jpg")
    as E1 by (vm_compute; reflexivity).
  assert (candidate "Fetched_Images/image" ".jpg" 2 = "Fetched_Images/image_2.jpg")
    as E2 by (vm_compute; reflexivity).
  split.
  - intros H1. destruct (decide (k = 1%nat)) as [->|]; [by rewrite Hq|].
    exfalso. apply H1. rewrite <- E1. apply Hlt. lia.
  - intros H1 H2. destruct (decide (k = 2%nat)) as [->|]; [by rewrite Hq|].
    exfalso. destruct (decide (k = 1%nat)) as [->|].
    + apply Hfresh. rewrite Hq, E1. exact H1.
    + apply H2. rewrite <- E2. apply Hlt. lia.
Qed.

(** ** The size ceiling *)

(** Chunks that stay within the ceiling are appended one after the
    other. *)
Lemma read_chunks_within pre : forall content events,
  len (content ++ concat pre) <= max_file_size ->
  read_chunks ((Chunk <$> pre) ++ events) content
  = read_chunks events (content ++ concat pre).
Proof.
  induction pre as [|chunk pre IH]; intros content events Hle; simpl.
  - by rewrite app_nil_r.
  - simpl in Hle. rewrite app_assoc in Hle.
    assert ((max_file_size <? len (content ++ chunk)) = false) as ->.
    { apply Z.ltb_ge. unfold len in *. rewrite length_app in Hle. lia. }
    rewrite IH by done. by rewrite <- app_assoc.
Qed.

(** C3, amended: a response that passed [validate_response], so that
    the reading loop is reached, and whose chunks,
    appended one after the other, first exceed [max_file_size]
    (10 * 1024 * 1024 bytes) with the chunk [chunk]: the loop stops at
    that chunk, whatever [rest] the stream still holds; the line printed
    is "File too large", nothing is returned, the hashes recorded and
    the files are as before. *)
Theorem oversized_body_aborts W st url response pre chunk rest :
  is_safe_url W url = Ok true ->
  requests_get W (requests st) url = Ok response ->
  validate_response response = Ok true ->
  iter_content response = (Chunk <$> pre) ++ Chunk chunk :: rest ->
  len (concat pre) <= max_file_size ->
  max_file_size < len (concat pre ++ chunk) ->
  max_file_size = 10485760
  /\ read_chunks (iter_content response) [] = Ok None
  /\ exists st',
       download_image W st url = Ok (st', (FileTooLarge, None))
       /\ files st' = files st
       /\ downloaded_hashes st' = downloaded_hashes st.
Proof.
  intros Hs Hg Hv Hc Hpre Hover. split; [reflexivity|].
  assert (read_chunks (iter_content response) [] = Ok None) as Hr.
  { rewrite Hc, read_chunks_within by done. simpl.
    by apply Z.ltb_lt in Hover as ->. }
  split; [done|]. exists (next_request st).
  unfold download_image, try_body. rewrite Hs. cbn. by rewrite Hg, Hv, Hr.
Qed.

(** ** Response validation *)

Lemma truthy_false s : Str.truthy s = false <-> s = EmptyString.
Proof. destruct s; simpl; split; congruence. Qed.

Lemma image_content_type_iff response :
  Str.startswith "image/" (content_type_of response) = true
  <-> has_image_content_type response.
Proof.
  unfold content_type_of, CaseInsensitiveDict.get_default, has_image_content_type.
  destruct (CaseInsensitiveDict.get _ _) as [v|]; simpl.
  - split; [eauto|]. by intros (v' & [= <-] & H).
  - split; [done|]. by intros (v' & [=] & _).
Qed.

(** A header is found under any spelling of its name. *)
Lemma header_lookup_case_insensitive name name' value d :
  Str.lower name = Str.lower name' ->
  CaseInsensitiveDict.get (CaseInsensitiveDict.set name value d) name' = Some value.
Proof.
  intros H. unfold CaseInsensitiveDict.get, CaseInsensitiveDict.set.
  rewrite <- H, lookup_insert_eq. reflexivity.
Qed.

(** C4 as the specification states it fails on [response_bad_length]:
    status 200, an image content type, a [Content-Length] that does not
    parse, so its three rules hold; [validate_response] does not
    accept, it raises [ValueError]. *)
Lemma validate_response_bad_length :
  ~ (validate_response response_bad_length = Ok true
     <-> accepted_as_specified response_bad_length).
Proof.
  intros [_ H].
  assert (validate_response response_bad_length = Raise ValueError) as Hr
    by (vm_compute; reflexivity).
  rewrite Hr in H. discriminate H.
  split; [reflexivity|]. split.
  - exists "image/png". split; vm_compute; reflexivity.
  - intros v n Hv. vm_compute in Hv. injection Hv as <-.
    intros Hn. vm_compute in Hn. discriminate Hn.
Qed.

Lemma validate_response_status response :
  status_code response <> 200 -> validate_response response = Ok false.
Proof.
  intros Hst. unfold validate_response.
  by destruct (Z.eqb_spec (status_code response) 200).
Qed.

Lemma validate_response_content_type response :
  status_code response = 200 -> ~ has_image_content_type response ->
  validate_response response = Ok false.
Proof.
  intros Hst Hn. unfold validate_response. rewrite Hst. simpl.
  fold (content_type_of response).
  destruct (Str.startswith "image/" (content_type_of response)) eqn:Himg;
    [|done].
  by apply image_content_type_iff in Himg.
Qed.

(** Past the first two rules the answer is that of the declared length. *)
Lemma validate_response_length response :
  status_code response = 200 -> has_image_content_type response ->
  validate_response response
  = match CaseInsensitiveDict.get (headers response) "Content-Length" with
    | Some content_length =>
        if Str.truthy content_length then
          n ← PyInt.int content_length;
          if max_file_size <? n then Ok false else Ok true
        else Ok true
    | None => Ok true
    end.
Proof.
  intros Hst Hy. unfold validate_response. rewrite Hst. simpl.
  fold (content_type_of response).
  apply image_content_type_iff in Hy. by rewrite Hy.
Qed.

Lemma validate_response_accepts_iff response :
  validate_response response = Ok true
  <-> status_code response = 200
      /\ has_image_content_type response
      /\ declared_length_within response.
Proof.
  unfold declared_length_within. cbv zeta.
  destruct (decide (status_code response = 200)) as [Hst|Hst].
  2:{ rewrite validate_response_status by done.
      split; [discriminate|]. by intros [? _]. }
  destruct (Str.startswith "image/" (content_type_of response)) eqn:Himg.
  2:{ assert (~ has_image_content_type response) as Hn
        by (rewrite <- image_content_type_iff; congruence).
      rewrite validate_response_content_type by done.
      split; [discriminate|]. by intros (_ & ? & _). }
  apply image_content_type_iff in Himg.
  rewrite validate_response_length by done.
  destruct (CaseInsensitiveDict.get (headers response) "Content-Length")
    as [cl|]; [|split; [intros _|]; auto].
  destruct (Str.truthy cl) eqn:Hcl.
  - destruct (PyInt.int cl) as [n|e] eqn:Hint; cbn.
    + destruct (Z.ltb_spec max_file_size n) as [Hlt|Hle].
      * split; [discriminate|].
        intros (_ & _ & [[=]|[[= ->]|(v & m & [= <-] & Hm & Hle)]]);
          [discriminate Hcl|].
        rewrite Hint in Hm. injection Hm as <-. lia.
      * split; [|done]. intros _. split; [done|]. split; [done|].
        right. right. exists cl, n. auto.
    + split; [discriminate|].
      intros (_ & _ & [[=]|[[= ->]|(v & m & [= <-] & Hm & Hle)]]);
        [discriminate Hcl|].
      rewrite Hint in Hm. discriminate Hm.
  - apply truthy_false in Hcl as ->. split; [intros _|]; auto.
Qed.

(** C4, amended: [validate_response] accepts exactly the responses with
    status 200, a [Content-Type] header (found under any spelling of the
    name) whose value starts with [image/] in any case, and a
    [Content-Length] that is absent, empty, or parses to a length within
    the ceiling.  The rules are tried in this order: another status is
    rejected whatever the headers, and with status 200 a missing or
    other content type is rejected whatever the declared length; a
    declared length over the ceiling is rejected. *)
Theorem validate_response_accepts response :
  (validate_response response = Ok true
   <-> status_code response = 200
       /\ has_image_content_type response
       /\ declared_length_within response)
  /\ (status_code response <> 200 -> validate_response response = Ok false)
  /\ (status_code response = 200 -> ~ has_image_content_type response ->
      validate_response response = Ok false)
  /\ (forall v n,
        status_code response = 200 -> has_image_content_type response ->
        CaseInsensitiveDict.get (headers response) "Content-Length" = Some v ->
        PyInt.int v = Ok n -> max_file_size < n ->
        validate_response response = Ok false)
  /\ (forall name value d,
        Str.lower name = "content-type" ->
        CaseInsensitiveDict.get (CaseInsensitiveDict.set name value d) "Content-Type"
        = Some value).
Proof.
  split; [apply validate_response_accepts_iff|].
  split; [apply validate_response_status|].
  split; [apply validate_response_content_type|].
  split.
  - intros v n Hst Hy Hv Hint Hlt.
    rewrite validate_response_length, Hv by done.
    destruct (Str.truthy v) eqn:Htruthy.
    + rewrite Hint. cbn. by apply Z.ltb_lt in Hlt as ->.
    + apply truthy_false in Htruthy as ->. vm_compute in Hint. discriminate Hint.
  - intros name value d Hname. by apply header_lookup_case_insensitive.
Qed.

(** ** A declared length that does not parse *)

Lemma unsigned_raises s e : PyInt.unsigned s = Raise e -> e = ValueError.
Proof.
  unfold PyInt.unsigned. destruct (PyInt.digits s false 0 0) as [[v n]|].
  - destruct (_ <? _); congruence.
  - congruence.
Qed.

(** [int] raises nothing but [ValueError]. *)
Lemma int_raises s e : PyInt.int s = Raise e -> e = ValueError.
Proof.
  unfold PyInt.int.
  destruct (Str.rstrip _ _) as [|a s'] eqn:Hs; [apply unsigned_raises|].
  destruct (Ascii.eqb_spec a "+"%char) as [->|Hplus]; [apply unsigned_raises|].
  destruct (Ascii.eqb_spec a "-"%char) as [->|Hminus].
  - destruct (PyInt.unsigned s') as [v|e'] eqn:Hu; cbn; [done|].
    intros [= <-]. by eapply unsigned_raises.
  - intros H. apply (unsigned_raises (String a s')). rewrite <- H.
    destruct a as [[] [] [] [] [] [] [] []]; try reflexivity; congruence.
Qed.

(** C10, amended: a response with status 200 and an image content type
    whose [Content-Length] is present, not empty, and refused by [int]:
    [validate_response] raises [ValueError], the generic handler of
    [download_image] catches it, the line printed is "An error
    occurred", nothing is returned, and the hashes recorded and the
    files are as before. *)
Theorem unparsable_content_length_fails W st url response v e :
  is_safe_url W url = Ok true ->
  requests_get W (requests st) url = Ok response ->
  status_code response = 200 ->
  has_image_content_type response ->
  CaseInsensitiveDict.get (headers response) "Content-Length" = Some v ->
  v <> EmptyString ->
  PyInt.int v = Raise e ->
  validate_response response = Raise ValueError
  /\ exists st',
       download_image W st url = Ok (st', (ErrorOccurred ValueError, None))
       /\ files st' = files st
       /\ downloaded_hashes st' = downloaded_hashes st.
Proof.
  intros Hs Hg Hst Hy Hv Hne Hint.
  assert (validate_response response = Raise ValueError) as Hval.
  { rewrite validate_response_length, Hv by done.
    destruct v; [done|]. simpl Str.truthy. cbv iota.
    rewrite Hint. cbn. f_equal. by eapply int_raises. }
  split; [done|]. exists (next_request st).
  unfold download_image, try_body. rewrite Hs. cbn. by rewrite Hg, Hval.
Qed.

(** ** Deduplication *)

(** The contract of the duplicate check: it answers whether the hash
    of the content was recorded, and the hash is recorded afterwards. *)
Lemma is_duplicate_image_spec hashes content :
  let h := Hashlib.md5_hexdigest content in
  is_duplicate_image hashes content = (bool_decide (h ∈ hashes), hashes ∪ {[h]}).
Proof.
  cbv zeta. unfold is_duplicate_image. case_bool_decide as Hin; [|done].
  f_equal. apply set_eq. intros x. rewrite elem_of_union, elem_of_singleton.
  split; [auto|]. by intros [?| ->].
Qed.

(** A hash recorded stays recorded for the rest of the batch, so a
    later body with that hash is a duplicate. *)
Lemma recorded_hash_is_duplicate W st urls n st' lines res url response content :
  Hashlib.md5_hexdigest content ∈ downloaded_hashes st ->
  for_urls W urls st n = (st', lines, res) ->
  delivers W st' url response content ->
  download_image W st' url = Ok (next_request st', (AlreadyDownloaded, None)).
Proof.
  intros Hin Hf Hd. eapply download_image_duplicate; [exact Hd|].
  apply for_urls_monotone in Hf as [Hsub _]. by apply Hsub.
Qed.

(** C9, amended: the body of [url] is new and the write of its file
    raises [e], at [open] or in [write].  The line printed is that of
    the handler for [e] ("An error occurred" unless [e] is a
    [RequestException]), nothing is reported saved or returned, and the
    hash of the body stays recorded: after any further URLs of the
    batch, a URL that delivers the same body is reported "Already
    downloaded".  The files present before are untouched; when [open]
    raises the directory is as before, and when [write] raises the path
    holds the bytes written until then. *)
Theorem hash_kept_after_failed_write W st url response content filename st1 line r :
  delivers W st url response content ->
  Hashlib.md5_hexdigest content ∉ downloaded_hashes st ->
  get_filename_from_url W url (content_type_of response) = Ok filename ->
  let filepath :=
    unique_filepath (files st) (OsPath.join "Fetched_Images" filename) in
  file_write W (requests st) filepath content <> Written ->
  download_image W st url = Ok (st1, (line, r)) ->
  (∃ e, line = handler e
        ∧ (file_write W (requests st) filepath content = OpenFails e
           ∨ ∃ written,
               file_write W (requests st) filepath content
               = WriteFails e written))
  ∧ is_saved line = false
  ∧ r = None
  ∧ Hashlib.md5_hexdigest content ∈ downloaded_hashes st1
  ∧ files st ⊆ files st1
  ∧ (∀ e, file_write W (requests st) filepath content = OpenFails e →
     files st1 = files st)
  ∧ (∀ e written,
       file_write W (requests st) filepath content = WriteFails e written →
       files st1 = <[filepath := take written content]> (files st))
  ∧ ∀ urls n st2 lines res url2 response2,
      for_urls W urls st1 n = (st2, lines, res) →
      delivers W st2 url2 response2 content →
      download_image W st2 url2
      = Ok (next_request st2, (AlreadyDownloaded, None)).
Proof.
  intros Hd Hnew Hname filepath Hw Hdl.
  destruct (download_image_new W st url response content Hd Hnew)
    as (filename' & Hname' & Hres).
  rewrite Hname in Hname'. injection Hname' as <-.
  cbv zeta in Hres. fold filepath in Hres. rewrite Hdl in Hres.
  assert (Hashlib.md5_hexdigest content ∈ downloaded_hashes st1) as Hin.
  { destruct (file_write W (requests st) filepath content);
      injection Hres as -> _ _; cbn; apply elem_of_union_r;
      by apply elem_of_singleton. }
  assert (files st ⊆ files st1) as Hsub
    by (eapply download_image_monotone, Hdl).
  assert (∀ urls n st2 lines res url2 response2,
            for_urls W urls st1 n = (st2, lines, res) →
            delivers W st2 url2 response2 content →
            download_image W st2 url2
            = Ok (next_request st2, (AlreadyDownloaded, None))) as Hlater.
  { intros urls n st2 lines res url2 response2 Hf Hd2.
    eapply recorded_hash_is_duplicate; eauto. }
  destruct (file_write W (requests st) filepath content) as [e|e written|]
    eqn:Hfw; [| |done]; injection Hres as -> -> ->.
  - split; [exists e; split; [done|by left]|].
    split; [by destruct e|]. split; [done|]. split; [done|].
    split; [done|]. split; [done|]. split; [discriminate|exact Hlater].
  - split; [exists e; split; [done|right; by exists written]|].
    split; [by destruct e|]. split; [done|]. split; [done|].
    split; [done|]. split; [discriminate|].
    split; [by intros ? ? [= _ <-]|exact Hlater].
Qed.

(** C5, amended: the duplicate check answers whether the hash of the
    content was recorded and records it in the same call.  Two URLs
    processed one after the other whose bodies reach the check: the
    first, its hash being new, is recorded, and it is reported saved
    when its write succeeds; if the second body is the same bytes it is
    reported "Already downloaded"; if the MD5 digests of the two bodies
    differ (rather than the bodies only), the second is treated as new:
    it is recorded too, and reported saved when its write succeeds. *)
Theorem dedup_by_content_hash
    W st url1 url2 response1 response2 content1 content2 st1 line1 r1 :
  delivers W st url1 response1 content1 ->
  Hashlib.md5_hexdigest content1 ∉ downloaded_hashes st ->
  download_image W st url1 = Ok (st1, (line1, r1)) ->
  delivers W st1 url2 response2 content2 ->
  (∀ hashes content,
     is_duplicate_image hashes content
     = (bool_decide (Hashlib.md5_hexdigest content ∈ hashes),
        hashes ∪ {[Hashlib.md5_hexdigest content]}))
  ∧ Hashlib.md5_hexdigest content1 ∈ downloaded_hashes st1
  ∧ (∃ filename1,
       get_filename_from_url W url1 (content_type_of response1) = Ok filename1
       ∧ let filepath1 :=
           unique_filepath (files st) (OsPath.join "Fetched_Images" filename1) in
         (file_write W (requests st) filepath1 content1 = Written →
          line1 = SuccessfullyFetched filename1 filepath1))
  ∧ (content1 = content2 →
     download_image W st1 url2
     = Ok (next_request st1, (AlreadyDownloaded, None)))
  ∧ (Hashlib.md5_hexdigest content1 ≠ Hashlib.md5_hexdigest content2 →
     Hashlib.md5_hexdigest content2 ∉ downloaded_hashes st →
     ∃ st2 line2 r2 filename2,
       download_image W st1 url2 = Ok (st2, (line2, r2))
       ∧ line2 ≠ AlreadyDownloaded
       ∧ Hashlib.md5_hexdigest content2 ∈ downloaded_hashes st2
       ∧ get_filename_from_url W url2 (content_type_of response2) = Ok filename2
       ∧ let filepath2 :=
           unique_filepath (files st1) (OsPath.join "Fetched_Images" filename2) in
         (file_write W (requests st1) filepath2 content2 = Written →
          line2 = SuccessfullyFetched filename2 filepath2)).
Proof.
  intros Hd1 Hnew1 Hdl1 Hd2.
  split; [intros; apply is_duplicate_image_spec|].
  destruct (download_image_new W st url1 response1 content1 Hd1 Hnew1)
    as (filename1 & Hname1 & Hres1).
  cbv zeta in Hres1. rewrite Hdl1 in Hres1.
  assert (downloaded_hashes st1
          = downloaded_hashes st ∪ {[Hashlib.md5_hexdigest content1]}) as Hh1.
  { destruct (file_write W _ _ content1); by injection Hres1 as -> _ _. }
  assert (Hashlib.md5_hexdigest content1 ∈ downloaded_hashes st1) as Hin1.
  { rewrite Hh1. apply elem_of_union_r. by apply elem_of_singleton. }
  split; [done|]. split.
  { exists filename1. split; [done|]. cbv zeta. intros Hw.
    rewrite Hw in Hres1. by injection Hres1 as _ -> _. }
  split.
  { intros <-. by eapply download_image_duplicate. }
  intros Hne Hnew2.
  assert (Hashlib.md5_hexdigest content2 ∉ downloaded_hashes st1) as Hnew2'.
  { rewrite Hh1, elem_of_union, elem_of_singleton. intros [?|?]; congruence. }
  destruct (download_image_new W st1 url2 response2 content2 Hd2 Hnew2')
    as (filename2 & Hname2 & Hres2).
  cbv zeta in Hres2.
  destruct (file_write W (requests st1) _ content2) as [e|e written|] eqn:Hw2;
    (eexists _, _, _, filename2; split; [exact Hres2|]);
    (split; [try destruct e; discriminate|]);
    (split; [cbn; apply elem_of_union_r; by apply elem_of_singleton|]);
    (split; [done|]); cbv zeta; rewrite Hw2; done.
Qed.

(** ** File names *)

Lemma rfind_absent c s : Str.contains c s = false -> Str.rfind c s = -1.
Proof.
  unfold Str.contains. induction s as [|a s IH]; simpl; [done|].
  destruct (Ascii.eqb a c); [done|].
  destruct (Z.ltb_spec (Str.find c s) 0) as [Hlt|Hge].
  - intros _. rewrite IH by (apply Z.leb_gt; lia). reflexivity.
  - intros H. apply Z.leb_gt in H. lia.
Qed.

Lemma rfind_nonneg c s : -1 <= Str.rfind c s.
Proof.
  induction s as [|a s IH]; simpl; [lia|].
  destruct (Z.leb_spec 0 (Str.rfind c s)); [lia|].
  destruct (Ascii.eqb a c); lia.
Qed.

Lemma rfind_present c dir s : 0 <= Str.rfind c (dir +:+ String c s).
Proof.
  induction dir as [|a dir IH].
  - change ("" +:+ String c s) with (String c s). simpl.
    pose proof (rfind_nonneg c s).
    destruct (Z.leb_spec 0 (Str.rfind c s)); [lia|].
    rewrite Ascii.eqb_refl. lia.
  - change (String a dir +:+ String c s) with (String a (dir +:+ String c s)).
    simpl. destruct (Z.leb_spec 0 (Str.rfind c (dir +:+ String c s))); lia.
Qed.

(** The base name is what follows the last slash. *)
Lemma basename_after_slash dir segment :
  Str.contains "/" segment = false ->
  OsPath.basename (dir +:+ "/" +:+ segment) = segment.
Proof.
  intros Hs. unfold OsPath.basename, Str.slice_from.
  change ("/" +:+ segment) with (String "/"%char segment).
  induction dir as [|a dir IH].
  - change ("" +:+ String "/"%char segment) with (String "/"%char segment).
    simpl Str.rfind. rewrite (rfind_absent _ _ Hs). reflexivity.
  - change (String a dir +:+ String "/"%char segment)
      with (String a (dir +:+ String "/"%char segment)).
    simpl Str.rfind.
    pose proof (rfind_present "/" dir segment) as Hge.
    destruct (Z.leb_spec 0 (Str.rfind "/" (dir +:+ String "/"%char segment)))
      as [Hr|Hr]; [|lia].
    replace (Z.to_nat (Str.rfind "/" (dir +:+ String "/"%char segment) + 1 + 1))
      with (S (Z.to_nat (Str.rfind "/" (dir +:+ String "/"%char segment) + 1)))
      by lia.
    exact IH.
Qed.

Lemma basename_no_slash p :
  Str.contains "/" p = false -> OsPath.basename p = p.
Proof.
  intros Hp. unfold OsPath.basename. by rewrite (rfind_absent _ _ Hp).
Qed.

Lemma unmapped_content_type content_type :
  content_type ∉ mapped_content_types ->
  get_extension_from_content_type content_type = ".jpg".
Proof.
  intros Hn. unfold get_extension_from_content_type, content_map.
  rewrite (not_elem_of_list_to_map_1 _ content_type); [reflexivity|exact Hn].
Qed.

(** C7: for a URL that parses, the file name comes from the last
    segment of its path, the part after the last slash.  An empty
    segment gives [ubuntu_image] followed by the extension of the
    content type; a segment without an extension (in the sense of
    [os.path.splitext]) gets that extension appended; a segment with an
    extension is kept as it is.  The extension of a content type is
    read from the table, and is [.jpg] for every type outside it. *)
Theorem filename_from_url W url content_type parsed :
  Urllib.urlparse (check_bracketed_netloc W) (check_nfkc_netloc W) url = Ok parsed ->
  let segment := OsPath.basename (Urllib.path parsed) in
  let extension := get_extension_from_content_type content_type in
  (forall dir seg,
     Urllib.path parsed = dir +:+ "/" +:+ seg ->
     Str.contains "/" seg = false -> segment = seg)
  /\ (Str.contains "/" (Urllib.path parsed) = false ->
      segment = Urllib.path parsed)
  /\ (segment = EmptyString ->
      get_filename_from_url W url content_type = Ok ("ubuntu_image" +:+ extension))
  /\ (segment <> EmptyString -> (OsPath.splitext segment).2 = EmptyString ->
      get_filename_from_url W url content_type = Ok (segment +:+ extension))
  /\ (segment <> EmptyString -> (OsPath.splitext segment).2 <> EmptyString ->
      get_filename_from_url W url content_type = Ok segment)
  /\ get_extension_from_content_type "image/jpeg" = ".jpg"
  /\ get_extension_from_content_type "image/jpg" = ".jpg"
  /\ get_extension_from_content_type "image/png" = ".png"
  /\ get_extension_from_content_type "image/gif" = ".gif"
  /\ get_extension_from_content_type "image/webp" = ".webp"
  /\ get_extension_from_content_type "image/svg+xml" = ".svg"
  /\ get_extension_from_content_type "image/bmp" = ".bmp"
  /\ get_extension_from_content_type "image/tiff" = ".tiff"
  /\ (forall other, other ∉ mapped_content_types ->
      get_extension_from_content_type other = ".jpg").
Proof.
  intros Hp. cbv zeta.
  split; [intros dir seg -> Hs; by apply basename_after_slash|].
  split; [apply basename_no_slash|].
  unfold get_filename_from_url. rewrite Hp. cbn.
  split.
  { intros ->. reflexivity. }
  split.
  { intros Hne Hext.
    destruct (OsPath.basename (Urllib.path parsed)) as [|a s] eqn:Hb; [done|].
    simpl negb. cbv iota.
    destruct (OsPath.splitext (String a s)) as [base ext]. simpl in Hext.
    by rewrite Hext. }
  split.
  { intros Hne Hext.
    destruct (OsPath.basename (Urllib.path parsed)) as [|a s] eqn:Hb; [done|].
    simpl negb. cbv iota.
    destruct (OsPath.splitext (String a s)) as [base ext]. simpl in Hext.
    by destruct ext. }
  repeat (split; [vm_compute; reflexivity|]).
  apply unmapped_content_type.
Qed.

(** ** The worked examples *)

Example collision_bodies :
  length collision_a = 128%nat /\ length collision_b = 128%nat
  /\ Hashlib.md5_hexdigest collision_a = "79054025255fb1a26e4bc422aef54eb4"
  /\ Hashlib.md5_hexdigest collision_b = "79054025255fb1a26e4bc422aef54eb4".
Proof. repeat split; vm_compute; reflexivity. Qed.

(** The scenario of the specification ends with "1 of 3". *)
Lemma batch_summary_scenario :
  scenario_urls <> []
  /\ Forall (fun url => exists safe, is_safe_url scenario_world url = Ok safe)
            scenario_urls
  /\ exists st' lines,
       main scenario_world fresh scenario_urls
       = (st', lines, Ok (Summary (saved_count lines) 3))
       /\ length lines = 3%nat.
Proof.
  assert (scenario_urls <> []) as Hne by discriminate.
  assert (Forall (fun url => exists safe, is_safe_url scenario_world url = Ok safe)
                 scenario_urls) as Hall.
  { unfold scenario_urls.
    repeat (apply List.Forall_cons; [eexists; vm_compute; reflexivity|]).
    apply List.Forall_nil. }
  split; [exact Hne|]. split; [exact Hall|].
  exact (batch_summary_counts_saved scenario_world fresh scenario_urls Hne Hall).
Defined.

(** With an unparsable URL in the second place the batch stops after
    the first image: its copy in the third place is never requested. *)
Example scenario_with_unparsable_url :
  (main scenario_world fresh
     ["http://example.test/a.png"; "http://["; "http://example.test/a.png"]).1.2
  = [SuccessfullyFetched "a.png" "Fetched_Images/a.png"]
  /\ (main scenario_world fresh
        ["http://example.test/a.png"; "http://["; "http://example.test/a.png"]).2
     = Raise ValueError.
Proof. split; vm_compute; reflexivity. Qed.

Example scenario_lines :
  (main scenario_world fresh scenario_urls).1.2
  = [SuccessfullyFetched "a.png" "Fetched_Images/a.png"; UnsafeUrlScheme;
     AlreadyDownloaded]
  /\ (main scenario_world fresh scenario_urls).2 = Ok (Summary 1 3).
Proof. split; vm_compute; reflexivity. Qed.

(** The third image named [image.jpg] goes to [image_2.jpg]. *)
Lemma third_image_goes_to_image_2 :
  download_image gallery_world gallery_two "http://c.test/image.jpg"
  = Ok (gallery_three,
        (SuccessfullyFetched "image.jpg" "Fetched_Images/image_2.jpg",
         Some "Fetched_Images/image_2.jpg"))
  /\ files gallery_two ⊆ files gallery_three
  /\ files gallery_two !! "Fetched_Images/image_2.jpg" = None
  /\ files gallery_two !! "Fetched_Images/image.jpg"
     = Some (list_byte_of_string "one")
  /\ files gallery_two !! "Fetched_Images/image_1.jpg"
     = Some (list_byte_of_string "two").
Proof.
  assert (download_image gallery_world gallery_two "http://c.test/image.jpg"
          = Ok (gallery_three,
                (SuccessfullyFetched "image.jpg" "Fetched_Images/image_2.jpg",
                 Some "Fetched_Images/image_2.jpg"))) as Hd
    by (vm_compute; reflexivity).
  destruct (saved_path_is_first_free _ _ _ _ _ _ Hd) as [Hsub Hsaved].
  destruct (Hsaved _ _ eq_refl) as (_ & Hfree & _).
  split; [exact Hd|]. split; [exact Hsub|]. split; [exact Hfree|].
  split; vm_compute; reflexivity.
Defined.

(** [validate_response] looks at the status and the headers only. *)
Lemma validate_response_ext response1 response2 :
  status_code response1 = status_code response2 ->
  headers response1 = headers response2 ->
  validate_response response1 = validate_response response2.
Proof. unfold validate_response. by intros -> ->. Qed.

Lemma len_app l1 l2 : len (l1 ++ l2) = len l1 + len l2.
Proof. unfold len. rewrite length_app. lia. Qed.

Lemma len_replicate n b : len (replicate n b) = Z.of_nat n.
Proof. unfold len. by rewrite length_replicate. Qed.

Lemma len_concat_singleton (l : list byte) : len (concat [l]) = len l.
Proof. simpl. by rewrite app_nil_r. Qed.

(** A body one byte over the ceiling is dropped at the chunk that
    crosses it; the broken rest of the stream is never read. *)
Lemma oversized_body_scenario :
  len (concat [ten_mebibytes]) <= max_file_size
  /\ max_file_size < len (concat [ten_mebibytes] ++ [x00])
  /\ exists st',
       download_image oversized_world fresh "http://example.test/big.png"
       = Ok (st', (FileTooLarge, None))
       /\ files st' = files fresh
       /\ downloaded_hashes st' = downloaded_hashes fresh.
Proof.
  assert (0 <= max_file_size) as Hpos by discriminate.
  assert (len (concat [ten_mebibytes]) = max_file_size) as Hlen
    by (rewrite len_concat_singleton, len_replicate; apply Z2Nat.id, Hpos).
  assert (len (concat [ten_mebibytes] ++ [x00]) = max_file_size + 1) as Hlen'
    by (rewrite len_app, Hlen; reflexivity).
  split; [rewrite Hlen; apply Z.le_refl|].
  split; [rewrite Hlen'; apply Z.lt_succ_diag_r|].
  apply (oversized_body_aborts oversized_world fresh
           "http://example.test/big.png" oversized_response
           [ten_mebibytes] [x00] [StreamError OtherException]).
  - vm_compute. reflexivity.
  - reflexivity.
  - rewrite (validate_response_ext oversized_response
               (image_response "image/png" []) eq_refl eq_refl).
    vm_compute. reflexivity.
  - reflexivity.
  - rewrite Hlen. apply Z.le_refl.
  - rewrite Hlen'. apply Z.lt_succ_diag_r.
Defined.

(** A response that [validate_response] refuses is not read. *)
Lemma download_image_invalid W st url response :
  is_safe_url W url = Ok true ->
  requests_get W (requests st) url = Ok response ->
  validate_response response = Ok false ->
  download_image W st url = Ok (next_request st, (InvalidResponse, None)).
Proof.
  intros Hs Hg Hv. unfold download_image, try_body.
  rewrite Hs. cbn. by rewrite Hg, Hv.
Qed.

(** C3 as stated fails on a response that declares the length of its
    body: the body exceeds the ceiling with its second chunk, but
    [validate_response] refuses the response for its [Content-Length],
    so that no chunk is read and the line printed is "Invalid
    response", not "File too large". *)
Lemma declared_oversize_is_invalid :
  len (concat [ten_mebibytes]) <= max_file_size
  /\ max_file_size < len (concat [ten_mebibytes] ++ [x00])
  /\ is_safe_url declared_oversized_world "http://example.test/big.png" = Ok true
  /\ requests_get declared_oversized_world (requests fresh)
       "http://example.test/big.png" = Ok declared_oversized_response
  /\ iter_content declared_oversized_response
     = (Chunk <$> [ten_mebibytes]) ++ [Chunk [x00]]
  /\ validate_response declared_oversized_response = Ok false
  /\ download_image declared_oversized_world fresh "http://example.test/big.png"
     = Ok (next_request fresh, (InvalidResponse, None))
  /\ InvalidResponse <> FileTooLarge.
Proof.
  assert (0 <= max_file_size) as Hpos by discriminate.
  assert (len (concat [ten_mebibytes]) = max_file_size) as Hlen
    by (rewrite len_concat_singleton, len_replicate; apply Z2Nat.id, Hpos).
  assert (len (concat [ten_mebibytes] ++ [x00]) = max_file_size + 1) as Hlen'
    by (rewrite len_app, Hlen; reflexivity).
  assert (is_safe_url declared_oversized_world "http://example.test/big.png"
          = Ok true) as Hs by (vm_compute; reflexivity).
  assert (validate_response declared_oversized_response = Ok false) as Hv.
  { rewrite (validate_response_ext declared_oversized_response
               {| status_code := 200;
                  headers := CaseInsensitiveDict.of_list
                               [("Content-Type", "image/png");
                                ("Content-Length", "10485761")];
                  iter_content := [] |} eq_refl eq_refl).
    vm_compute. reflexivity. }
  split; [rewrite Hlen; apply Z.le_refl|].
  split; [rewrite Hlen'; apply Z.lt_succ_diag_r|].
  split; [exact Hs|]. split; [reflexivity|]. split; [reflexivity|].
  split; [exact Hv|]. split; [|discriminate].
  exact (download_image_invalid declared_oversized_world fresh
           "http://example.test/big.png" declared_oversized_response
           Hs eq_refl Hv).
Qed.

(** A content type decides the extension of a URL whose last segment
    has none. *)
Lemma photo_gets_png :
  Urllib.urlparse (check_bracketed_netloc scenario_world)
    (check_nfkc_netloc scenario_world)
    "http://example.test/gallery/photo"
  = Ok {| Urllib.scheme := "http"; Urllib.netloc := "example.test";
          Urllib.path := "/gallery/photo"; Urllib.params := "";
          Urllib.query := ""; Urllib.fragment := "" |}
  /\ get_filename_from_url scenario_world "http://example.test/gallery/photo"
       "image/png" = Ok "photo.png"
  /\ get_filename_from_url scenario_world "http://example.test/gallery/photo"
       "image/x-custom" = Ok "photo.jpg".
Proof.
  assert (Urllib.urlparse (check_bracketed_netloc scenario_world)
    (check_nfkc_netloc scenario_world)
            "http://example.test/gallery/photo"
          = Ok {| Urllib.scheme := "http"; Urllib.netloc := "example.test";
                  Urllib.path := "/gallery/photo"; Urllib.params := "";
                  Urllib.query := ""; Urllib.fragment := "" |}) as Hp
    by (vm_compute; reflexivity).
  split; [exact Hp|]. split.
  - destruct (filename_from_url scenario_world _ "image/png" _ Hp)
      as (_ & _ & _ & Happend & _).
    apply Happend; [discriminate | vm_compute; reflexivity].
  - destruct (filename_from_url scenario_world _ "image/x-custom" _ Hp)
      as (_ & _ & _ & Happend & _).
    apply Happend; [discriminate | vm_compute; reflexivity].
Defined.

Example filenames :
  get_filename_from_url scenario_world "http://example.test/" "image/gif"
  = Ok "ubuntu_image.gif"
  /\ get_filename_from_url scenario_world "http://example.test/a/b.jpeg?x=1#top"
       "image/png" = Ok "b.jpeg"
  /\ get_filename_from_url scenario_world "http://example.test/.hidden"
       "image/webp" = Ok ".hidden.webp".
Proof. repeat split; vm_compute; reflexivity. Qed.

(** The first [open] fails: the image is not saved, and its copy on
    another site is then taken for a duplicate. *)
Lemma failed_write_blocks_copy :
  download_image flaky_world fresh "http://example.test/a.png"
  = Ok (flaky_one, (ErrorOccurred OSError, None))
  /\ files flaky_one = files fresh
  /\ download_image flaky_world flaky_one "http://mirror.test/copy.png"
     = Ok (next_request flaky_one, (AlreadyDownloaded, None)).
Proof.
  set (st1 := flaky_one).
  set (response := image_response "image/png" (list_byte_of_string "abc")).
  assert (delivers flaky_world fresh "http://example.test/a.png" response
            (list_byte_of_string "abc")) as Hd
    by (repeat split; vm_compute; reflexivity).
  assert (delivers flaky_world st1 "http://mirror.test/copy.png" response
            (list_byte_of_string "abc")) as Hd2
    by (repeat split; vm_compute; reflexivity).
  assert (download_image flaky_world fresh "http://example.test/a.png"
          = Ok (st1, (ErrorOccurred OSError, None))) as Hdl
    by (vm_compute; reflexivity).
  assert (Hashlib.md5_hexdigest (list_byte_of_string "abc")
          ∉ downloaded_hashes fresh) as Hnew by apply not_elem_of_empty.
  assert (get_filename_from_url flaky_world "http://example.test/a.png"
            (content_type_of response) = Ok "a.png") as Hname
    by (vm_compute; reflexivity).
  assert (file_write flaky_world (requests fresh)
            (unique_filepath (files fresh) (OsPath.join "Fetched_Images" "a.png"))
            (list_byte_of_string "abc") = OpenFails OSError) as Hw
    by reflexivity.
  assert (file_write flaky_world (requests fresh)
            (unique_filepath (files fresh) (OsPath.join "Fetched_Images" "a.png"))
            (list_byte_of_string "abc") <> Written) as Hw'
    by (rewrite Hw; discriminate).
  destruct (hash_kept_after_failed_write flaky_world fresh _ response _ "a.png"
              st1 _ _ Hd Hnew Hname Hw' Hdl)
    as (_ & _ & _ & _ & _ & Hopen & _ & Hlater).
  split; [exact Hdl|]. split; [exact (Hopen OSError Hw)|].
  exact (Hlater [] 0 st1 [] (Ok 0) _ response eq_refl Hd2).
Defined.

(** C9 as stated fails when [write] raises after [open] has created
    the file: the body is new, the line printed is "An error occurred"
    and nothing is returned, yet a file is left in the directory under
    the path of the image, holding the first byte of the body. *)
Lemma failed_write_leaves_file :
  delivers torn_world fresh "http://example.test/a.png"
    (image_response "image/png" (list_byte_of_string "abc"))
    (list_byte_of_string "abc")
  /\ file_write torn_world (requests fresh) "Fetched_Images/a.png"
       (list_byte_of_string "abc") = WriteFails OSError 1
  /\ download_image torn_world fresh "http://example.test/a.png"
     = Ok (torn_one, (ErrorOccurred OSError, None))
  /\ Hashlib.md5_hexdigest (list_byte_of_string "abc") ∈ downloaded_hashes torn_one
  /\ files fresh !! "Fetched_Images/a.png" = None
  /\ files torn_one !! "Fetched_Images/a.png" = Some (list_byte_of_string "a").
Proof.
  split; [repeat split; vm_compute; reflexivity|].
  split; [reflexivity|]. split; [vm_compute; reflexivity|].
  split; [|split; vm_compute; reflexivity].
  apply (bool_decide_unpack _). vm_compute. exact I.
Qed.

(** A declared length that is no number ends in the generic failure. *)
Lemma bad_length_scenario :
  PyInt.int "abc" = Raise ValueError
  /\ validate_response response_bad_length = Raise ValueError
  /\ exists st',
       download_image bad_length_world fresh "http://example.test/a.png"
       = Ok (st', (ErrorOccurred ValueError, None))
       /\ files st' = files fresh
       /\ downloaded_hashes st' = downloaded_hashes fresh.
Proof.
  assert (PyInt.int "abc" = Raise ValueError) as Hint by (vm_compute; reflexivity).
  split; [exact Hint|].
  apply (unparsable_content_length_fails bad_length_world fresh
           "http://example.test/a.png" response_bad_length "abc" ValueError).
  - vm_compute. reflexivity.
  - vm_compute. reflexivity.
  - reflexivity.
  - exists "image/png". split; vm_compute; reflexivity.
  - vm_compute. reflexivity.
  - discriminate.
  - exact Hint.
Defined.

(** C10 as stated fails on an empty [Content-Length]: the header is
    present and is no decimal integer ([int] refuses the empty string),
    yet [int] is not called on it; the response is accepted and the
    image saved. *)
Lemma empty_content_length_is_fetched :
  status_code response_empty_length = 200
  /\ has_image_content_type response_empty_length
  /\ CaseInsensitiveDict.get (headers response_empty_length) "Content-Length"
     = Some EmptyString
  /\ PyInt.int EmptyString = Raise ValueError
  /\ validate_response response_empty_length = Ok true
  /\ download_image empty_length_world fresh "http://example.test/a.png"
     = Ok (empty_length_one,
           (SuccessfullyFetched "a.png" "Fetched_Images/a.png",
            Some "Fetched_Images/a.png"))
  /\ files empty_length_one !! "Fetched_Images/a.png"
     = Some (list_byte_of_string "abc").
Proof.
  split; [reflexivity|].
  split; [exists "image/png"; split; vm_compute; reflexivity|].
  repeat split; vm_compute; reflexivity.
Qed.

(** The same image on two sites: saved once, then a duplicate.  Two
    images with different digests under one name: both saved. *)
Lemma same_body_is_duplicate :
  (download_image mirror_world fresh "http://example.test/a.png"
   = Ok (mirror_one, (SuccessfullyFetched "a.png" "Fetched_Images/a.png",
                      Some "Fetched_Images/a.png"))
   /\ download_image mirror_world mirror_one "http://mirror.test/copy.png"
      = Ok (next_request mirror_one, (AlreadyDownloaded, None)))
  /\ (download_image gallery_world fresh "http://a.test/image.jpg"
      = Ok (gallery_one,
            (SuccessfullyFetched "image.jpg" "Fetched_Images/image.jpg",
             Some "Fetched_Images/image.jpg"))
      /\ exists st2 line2 r2,
           download_image gallery_world gallery_one "http://b.test/image.jpg"
           = Ok (st2, (line2, r2))
           /\ line2 = SuccessfullyFetched "image.jpg" "Fetched_Images/image_1.jpg").
Proof.
  split.
  - set (st1 := mirror_one).
    set (response := image_response "image/png" (list_byte_of_string "abc")).
    assert (delivers mirror_world fresh "http://example.test/a.png" response
              (list_byte_of_string "abc")) as Hd
      by (repeat split; vm_compute; reflexivity).
    assert (delivers mirror_world st1 "http://mirror.test/copy.png" response
              (list_byte_of_string "abc")) as Hd2
      by (repeat split; vm_compute; reflexivity).
    assert (download_image mirror_world fresh "http://example.test/a.png"
            = Ok (st1, (SuccessfullyFetched "a.png" "Fetched_Images/a.png",
                        Some "Fetched_Images/a.png"))) as Hdl
      by (vm_compute; reflexivity).
    assert (Hashlib.md5_hexdigest (list_byte_of_string "abc")
            ∉ downloaded_hashes fresh) as Hnew by apply not_elem_of_empty.
    destruct (dedup_by_content_hash mirror_world fresh _ _ response response _ _
                st1 _ _ Hd Hnew Hdl Hd2)
      as (_ & _ & _ & Hsame & _).
    split; [exact Hdl|]. exact (Hsame eq_refl).
  - set (st1 := gallery_one).
    set (one := image_response "image/jpeg" (list_byte_of_string "one")).
    set (two := image_response "image/jpeg" (list_byte_of_string "two")).
    assert (delivers gallery_world fresh "http://a.test/image.jpg" one
              (list_byte_of_string "one")) as Hd
      by (repeat split; vm_compute; reflexivity).
    assert (delivers gallery_world st1 "http://b.test/image.jpg" two
              (list_byte_of_string "two")) as Hd2
      by (repeat split; vm_compute; reflexivity).
    assert (download_image gallery_world fresh "http://a.test/image.jpg"
            = Ok (st1, (SuccessfullyFetched "image.jpg" "Fetched_Images/image.jpg",
                        Some "Fetched_Images/image.jpg"))) as Hdl
      by (vm_compute; reflexivity).
    assert (Hashlib.md5_hexdigest (list_byte_of_string "one")
            ∉ downloaded_hashes fresh) as Hnew by apply not_elem_of_empty.
    assert (Hashlib.md5_hexdigest (list_byte_of_string "two")
            ∉ downloaded_hashes fresh) as Hnew2 by apply not_elem_of_empty.
    assert (Hashlib.md5_hexdigest (list_byte_of_string "one")
            <> Hashlib.md5_hexdigest (list_byte_of_string "two")) as Hne
      by (vm_compute; discriminate).
    destruct (dedup_by_content_hash gallery_world fresh _ _ one two _ _
                st1 _ _ Hd Hnew Hdl Hd2)
      as (_ & _ & _ & _ & Hdiff).
    destruct (Hdiff Hne Hnew2)
      as (st2 & line2 & r2 & filename2 & Hdl2 & _ & _ & Hname2 & Hsaved2).
    split; [exact Hdl|]. exists st2, line2, r2. split; [exact Hdl2|].
    assert (filename2 = "image.jpg") as ->
      by (vm_compute in Hname2; congruence).
    apply Hsaved2. reflexivity.
Defined.

(** C5 as stated fails on [collision_a] and [collision_b]: the bodies
    differ, both reach the duplicate check, no hash was recorded before
    and the disk is healthy; the first is saved and the second, whose
    MD5 digest is the same, is reported "Already downloaded" and not
    written. *)
Lemma md5_collision_is_duplicate :
  collision_a <> collision_b
  /\ delivers collision_world fresh "http://example.test/a.png"
       (image_response "image/png" collision_a) collision_a
  /\ download_image collision_world fresh "http://example.test/a.png"
     = Ok (collision_one, (SuccessfullyFetched "a.png" "Fetched_Images/a.png",
                           Some "Fetched_Images/a.png"))
  /\ delivers collision_world collision_one "http://example.test/b.png"
       (image_response "image/png" collision_b) collision_b
  /\ download_image collision_world collision_one "http://example.test/b.png"
     = Ok (next_request collision_one, (AlreadyDownloaded, None))
  /\ files (next_request collision_one) !! "Fetched_Images/b.png" = None.
Proof.
  split.
  { intros H. apply (f_equal (fun l => l !! 19%nat)) in H.
    vm_compute in H. discriminate H. }
  split; [repeat split; vm_compute; reflexivity|].
  split; [vm_compute; reflexivity|].
  split; [repeat split; vm_compute; reflexivity|].
  split; vm_compute; reflexivity.
Qed.

(** The three rules on an accepted and on three rejected responses. *)
Lemma validate_response_examples :
  validate_response (image_response "IMAGE/PNG" []) = Ok true
  /\ validate_response
       {| status_code := 404;
          headers := CaseInsensitiveDict.of_list
                       [("Content-Type", "image/png"); ("Content-Length", "abc")];
          iter_content := [] |} = Ok false
  /\ validate_response
       {| status_code := 200;
          headers := CaseInsensitiveDict.of_list
                       [("Content-Type", "text/html"); ("Content-Length", "abc")];
          iter_content := [] |} = Ok false
  /\ validate_response
       {| status_code := 200;
          headers := CaseInsensitiveDict.of_list
                       [("content-type", "image/png");
                        ("CONTENT-LENGTH", "10485761")];
          iter_content := [] |} = Ok false.
Proof.
  split.
  { apply (proj1 (validate_response_accepts _)).
    split; [reflexivity|]. split.
    - exists "IMAGE/PNG". split; vm_compute; reflexivity.
    - left. vm_compute. reflexivity. }
  split.
  { apply (proj1 (proj2 (validate_response_accepts _))). discriminate. }
  split.
  { apply (proj1 (proj2 (proj2 (validate_response_accepts _)))); [reflexivity|].
    intros (v & Hv & Hs). vm_compute in Hv. injection Hv as <-.
    vm_compute in Hs. discriminate Hs. }
  apply (proj1 (proj2 (proj2 (proj2 (validate_response_accepts _))))
           "10485761" 10485761).
  - reflexivity.
  - exists "image/png". split; vm_compute; reflexivity.
  - vm_compute. reflexivity.
  - vm_compute. reflexivity.
  - reflexivity.
Defined.

(** * Further properties *)

(** ** Reading the body *)

Lemma read_chunks_from chunks : forall content,
  len content <= max_file_size ->
  read_chunks (Chunk <$> chunks) content
  = if len (content ++ concat chunks) <=? max_file_size
    then Ok (Some (content ++ concat chunks)) else Ok None.
Proof.
  induction chunks as [|chunk chunks IH]; intros content Hle; simpl.
  - rewrite app_nil_r. by apply Z.leb_le in Hle as ->.
  - destruct (Z.ltb_spec max_file_size (len (content ++ chunk))) as [Hlt|Hge].
    + assert (max_file_size < len (content ++ chunk ++ concat chunks)) as Hlt'.
      { rewrite app_assoc, len_app. unfold len at 2. lia. }
      by apply Z.leb_gt in Hlt' as ->.
    + rewrite IH by done. by rewrite <- app_assoc.
Qed.

(** X1: a stream that delivers its chunks without a transport error is
    read in full exactly when the chunks add up to at most
    [max_file_size] bytes, however the body is cut in chunks, and the
    body is the chunks put end to end; a byte more and nothing is kept. *)
Theorem read_chunks_accepts_up_to_ceiling chunks :
  read_chunks (Chunk <$> chunks) []
  = if len (concat chunks) <=? max_file_size
    then Ok (Some (concat chunks)) else Ok None.
Proof. by rewrite read_chunks_from. Qed.

(** What a body that was read in full was made of. *)
Lemma read_chunks_complete events : forall content body,
  len content <= max_file_size ->
  read_chunks events content = Ok (Some body) ->
  exists chunks,
    events = Chunk <$> chunks /\ body = content ++ concat chunks
    /\ len body <= max_file_size.
Proof.
  induction events as [|[chunk|e] events IH]; intros content body Hle; simpl.
  - intros [= <-]. exists []. by rewrite app_nil_r.
  - destruct (Z.ltb_spec max_file_size (len (content ++ chunk))) as [Hlt|Hge];
      [done|].
    intros Hr. apply IH in Hr as (chunks & -> & -> & Hlen); [|done].
    exists (chunk :: chunks). simpl. by rewrite app_assoc.
  - done.
Qed.

(** ** What a download leaves behind *)

(** The path that ends with a saved image, step by step. *)
Lemma download_image_saved_inv W st url st' filename filepath r :
  download_image W st url = Ok (st', (SuccessfullyFetched filename filepath, r)) ->
  exists response content,
    delivers W st url response content
    /\ (Hashlib.md5_hexdigest content ∉ downloaded_hashes st)
    /\ get_filename_from_url W url (content_type_of response) = Ok filename
    /\ filepath = unique_filepath (files st) (OsPath.join "Fetched_Images" filename)
    /\ file_write W (requests st) filepath content = Written
    /\ r = Some filepath
    /\ st' = with_file
               (with_hashes (next_request st)
                  (downloaded_hashes st ∪ {[Hashlib.md5_hexdigest content]}))
               filepath content.
Proof.
  unfold download_image, try_body, is_duplicate_image, delivers.
  destruct (is_safe_url W url) as [[]|]; cbn; intros Hd;
    repeat case_match; simplify_eq; cbn;
    try (by match goal with H : handler ?e = _ |- _ => destruct e end).
  eexists _, _. repeat split; try done.
  by eapply bool_decide_eq_false_1.
Qed.

(** X2: a saved file holds the body as it was streamed: the chunks of the
    response put end to end, within the ceiling; the path returned is
    the path written, and the hash of the body, new before, is
    recorded. *)
Theorem saved_file_is_the_body W st url st' filename filepath r :
  download_image W st url = Ok (st', (SuccessfullyFetched filename filepath, r)) ->
  exists response chunks,
    requests_get W (requests st) url = Ok response
    /\ iter_content response = Chunk <$> chunks
    /\ files st' !! filepath = Some (concat chunks)
    /\ len (concat chunks) <= max_file_size
    /\ r = Some filepath
    /\ (Hashlib.md5_hexdigest (concat chunks) ∉ downloaded_hashes st)
    /\ (Hashlib.md5_hexdigest (concat chunks) ∈ downloaded_hashes st').
Proof.
  intros Hd.
  apply download_image_saved_inv in Hd
    as (response & content & (_ & Hg & _ & Hr) & Hnew & _ & _ & _ & -> & ->).
  apply read_chunks_complete in Hr as (chunks & Hev & -> & Hlen); [|done].
  exists response, chunks. simpl in *.
  split; [done|]. split; [done|]. split; [apply lookup_insert_eq|].
  split; [done|]. split; [done|]. split; [done|].
  apply elem_of_union_r. by apply elem_of_singleton.
Qed.

(** What one call does to the state, by the line it prints. *)
Lemma download_image_effect W st url st' line r :
  download_image W st url = Ok (st', (line, r)) ->
  requests st' = (requests st + if was_requested line then 1 else 0)%nat
  /\ (is_saved line = false -> r = None)
  /\ (is_saved line = false ->
      (is_error_line line = true -> write_succeeds W st) ->
      files st' = files st /\ downloaded_hashes st' = downloaded_hashes st).
Proof.
  unfold download_image, try_body, is_duplicate_image, write_succeeds.
  destruct (is_safe_url W url) as [[]|] eqn:Hs; cbn; intros Hd;
    repeat case_match; simplify_eq;
    repeat match goal with e : exn |- _ => destruct e end;
    cbn in *; try discriminate;
    try match goal with
        | H : get_filename_from_url ?W ?u ?ct = Raise _ |- _ =>
            destruct (get_filename_from_url_returns W u true ct Hs); congruence
        end;
    (split; [lia|]); (split; [intros ?; congruence|]);
    intros ? Hw; try congruence; auto;
    specialize (Hw eq_refl);
    match goal with
    | H : file_write _ _ ?p ?c = _ |- _ => rewrite (Hw p c) in H; discriminate H
    end.
Qed.

(** X3: a download that saves nothing leaves the directory and the
    recorded hashes as they were and returns nothing, unless the write
    of the file failed: this holds after each of the lines "Unsafe URL
    scheme", "Invalid response", "File too large" and "Already
    downloaded", and after "Connection error" and "An error occurred"
    when neither [open] nor [write] raises (the exception then comes
    from the request, the validation or the stream). *)
Theorem rejected_download_changes_nothing W st url st' line r :
  download_image W st url = Ok (st', (line, r)) ->
  is_saved line = false ->
  (is_error_line line = true -> write_succeeds W st) ->
  files st' = files st
  /\ downloaded_hashes st' = downloaded_hashes st
  /\ r = None.
Proof.
  intros Hd Hs Hw.
  apply download_image_effect in Hd as (_ & Hr & Hst).
  destruct (Hst Hs Hw). auto.
Qed.

(** ** What a batch leaves behind *)

Lemma for_urls_requests W urls : forall st n st' lines res,
  for_urls W urls st n = (st', lines, res) ->
  requests st'
  = (requests st + length (filter (fun line => was_requested line = true) lines))%nat.
Proof.
  induction urls as [|url urls IH]; intros st n st' lines res; simpl.
  - intros [= <- <- <-]. simpl. lia.
  - destruct (download_image W st url) as [[st1 [line r]]|] eqn:Hd.
    + destruct (for_urls W urls st1 _) as [[st2 lines2] res2] eqn:Hf.
      intros [= <- <- <-].
      apply download_image_effect in Hd as (Hreq & _).
      apply IH in Hf. rewrite Hf, Hreq, filter_cons.
      destruct (was_requested line).
      * rewrite decide_True by done. simpl. lia.
      * rewrite decide_False by done. lia.
    + intros [= <- <- <-]. simpl. lia.
Qed.

(** X4: one request is issued for every URL that passes the scheme check,
    none for a URL refused for its scheme, and none is repeated: the
    requests of a batch are as many as its lines other than "Unsafe URL
    scheme". *)
Theorem one_request_per_safe_url W st urls st' lines r :
  main W st urls = (st', lines, r) ->
  requests st'
  = (requests st + length (filter (fun line => was_requested line = true) lines))%nat.
Proof.
  unfold main. destruct urls as [|url urls].
  - intros [= <- <- <-]. simpl. lia.
  - destruct (for_urls W (url :: urls) st 0) as [[st2 lines2] res] eqn:Hf.
    intros [= <- <- <-]. by apply for_urls_requests in Hf.
Qed.

(** The saved images of a batch, against the state before and after. *)
Lemma for_urls_saved W urls : forall st n st' lines res,
  for_urls W urls st n = (st', lines, res) ->
  NoDup (saved_paths lines)
  /\ (forall p, p ∈ saved_paths lines ->
      files st !! p = None
      /\ exists c, files st' !! p = Some c
                   /\ (Hashlib.md5_hexdigest c ∉ downloaded_hashes st)
                   /\ (Hashlib.md5_hexdigest c ∈ downloaded_hashes st'))
  /\ (forall p q c d,
        p ∈ saved_paths lines -> q ∈ saved_paths lines -> p <> q ->
        files st' !! p = Some c -> files st' !! q = Some d ->
        Hashlib.md5_hexdigest c <> Hashlib.md5_hexdigest d).
Proof.
  induction urls as [|url urls IH]; intros st n st' lines res; simpl.
  { intros [= <- <- <-]. unfold saved_paths. simpl.
    split; [constructor|]. split; [intros p Hp|intros p q c d Hp]; by apply elem_of_nil in Hp. }
  destruct (download_image W st url) as [[st1 [line r]]|] eqn:Hd.
  2:{ intros [= <- <- <-]. unfold saved_paths. simpl.
      split; [constructor|]. split; [intros p Hp|intros p q c d Hp]; by apply elem_of_nil in Hp. }
  destruct (for_urls W urls st1 _) as [[st2 lines2] res2] eqn:Hf.
  intros [= <- <- <-].
  pose proof (download_image_monotone _ _ _ _ _ _ Hd) as [Hh1 Hf1].
  pose proof (for_urls_monotone _ _ _ _ _ _ _ Hf) as [Hh2 Hf2].
  apply IH in Hf as (Hnd & Hall & Hpair).
  assert (forall p, p ∈ saved_paths lines2 ->
            files st !! p = None
            /\ exists c, files st2 !! p = Some c
                 /\ (Hashlib.md5_hexdigest c ∉ downloaded_hashes st)
                 /\ (Hashlib.md5_hexdigest c ∈ downloaded_hashes st2)) as Hall'.
  { intros p Hp. destruct (Hall p Hp) as (Hnone & c & Hc & Hnew & Hin).
    split.
    - destruct (files st !! p) as [x|] eqn:Hx; [|done].
      eapply lookup_weaken in Hx; [|exact Hf1]. congruence.
    - exists c. split; [done|]. split; [|done]. intros ?. by apply Hnew, Hh1. }
  destruct line as [| | | |filename filepath| |];
    try (unfold saved_paths in *; simpl; by auto).
  apply download_image_saved_inv in Hd
    as (response & content & _ & Hnew & _ & Hp & _ & _ & ->).
  assert (files st !! filepath = None) as Hfree
    by (rewrite Hp; apply unique_filepath_fresh).
  simpl in Hh2, Hf2, Hall, Hpair.
  assert (files st2 !! filepath = Some content) as Hc.
  { eapply lookup_weaken; [|exact Hf2]. apply lookup_insert_eq. }
  assert (Hashlib.md5_hexdigest content ∈ downloaded_hashes st2) as Hin.
  { apply Hh2, elem_of_union_r. by apply elem_of_singleton. }
  assert (forall q, q ∈ saved_paths lines2 ->
            q <> filepath
            /\ forall d, files st2 !! q = Some d ->
                 Hashlib.md5_hexdigest d <> Hashlib.md5_hexdigest content)
    as Htail.
  { intros q Hq. destruct (Hall q Hq) as (Hnone & d & Hd2 & Hnew2 & _). split.
    - intros ->. rewrite lookup_insert_eq in Hnone. discriminate Hnone.
    - intros d' Hd'. rewrite Hd2 in Hd'. injection Hd' as <-. intros E.
      apply Hnew2. rewrite E. apply elem_of_union_r. by apply elem_of_singleton. }
  unfold saved_paths. simpl. fold (saved_paths lines2).
  split; [|split].
  - apply NoDup_cons. split; [|done]. intros Hq. by destruct (Htail _ Hq).
  - intros p [->|Hp']%elem_of_cons; [|by apply Hall'].
    split; [done|]. exists content. split; [done|]. split; done.
  - intros p q c d [->|Hp']%elem_of_cons [->|Hq']%elem_of_cons Hne Hpc Hqd.
    + done.
    + rewrite Hc in Hpc. injection Hpc as <-.
      intros E. by eapply (proj2 (Htail q Hq')).
    + rewrite Hc in Hqd. injection Hqd as <-.
      by eapply (proj2 (Htail p Hp')).
    + exact (Hpair p q c d Hp' Hq' Hne Hpc Hqd).
Qed.

(** X5: a batch never saves two images under one path nor two images with
    the same MD5 digest: the paths reported saved are pairwise
    different, each was free before the batch and holds after it a body
    whose hash was new, and the bodies under two of them differ in
    their digest.  Files and hashes present before are kept. *)
Theorem batch_saves_distinct_images W st urls st' lines r :
  main W st urls = (st', lines, r) ->
  downloaded_hashes st ⊆ downloaded_hashes st'
  /\ files st ⊆ files st'
  /\ NoDup (saved_paths lines)
  /\ (forall p, p ∈ saved_paths lines ->
      files st !! p = None
      /\ exists c, files st' !! p = Some c
                   /\ (Hashlib.md5_hexdigest c ∉ downloaded_hashes st)
                   /\ (Hashlib.md5_hexdigest c ∈ downloaded_hashes st'))
  /\ (forall p q c d,
        p ∈ saved_paths lines -> q ∈ saved_paths lines -> p <> q ->
        files st' !! p = Some c -> files st' !! q = Some d ->
        Hashlib.md5_hexdigest c <> Hashlib.md5_hexdigest d).
Proof.
  unfold main. destruct urls as [|url urls].
  - intros [= <- <- <-]. unfold saved_paths. simpl.
    split; [done|]. split; [done|]. split; [constructor|].
    split; [intros p Hp|intros p q c d Hp]; by apply elem_of_nil in Hp.
  - destruct (for_urls W (url :: urls) st 0) as [[st2 lines2] res] eqn:Hf.
    intros [= <- <- <-].
    pose proof (for_urls_monotone _ _ _ _ _ _ _ Hf) as [Hh Hfs].
    apply for_urls_saved in Hf. tauto.
Qed.

(** ** Text *)

Lemma string_app_cons a s t : String a s +:+ t = String a (s +:+ t).
Proof. reflexivity. Qed.

Lemma string_app_nil_l t : "" +:+ t = t.
Proof. reflexivity. Qed.

Lemma find_ge c s : -1 <= Str.find c s.
Proof.
  induction s as [|a s IH]; simpl; [lia|].
  destruct (Ascii.eqb a c); [lia|].
  destruct (Z.ltb_spec (Str.find c s) 0); lia.
Qed.

Lemma contains_cons c a s :
  Str.contains c (String a s) = Ascii.eqb a c || Str.contains c s.
Proof.
  unfold Str.contains. simpl. destruct (Ascii.eqb a c); [done|]. simpl.
  pose proof (find_ge c s).
  destruct (Z.ltb_spec (Str.find c s) 0);
    destruct (Z.leb_spec 0 (Str.find c s)); try lia.
Qed.

Lemma contains_app c s t :
  Str.contains c (s +:+ t) = Str.contains c s || Str.contains c t.
Proof.
  induction s as [|a s IH]; [done|].
  rewrite string_app_cons, !contains_cons, IH. by rewrite orb_assoc.
Qed.

Lemma contains_take c n s :
  Str.contains c s = false -> Str.contains c (Str.take n s) = false.
Proof.
  revert s. induction n as [|n IH]; intros [|a s]; simpl; try done.
  rewrite !contains_cons. intros [? ?]%orb_false_elim.
  apply orb_false_intro; auto.
Qed.

Lemma contains_drop c n s :
  Str.contains c s = false -> Str.contains c (Str.drop n s) = false.
Proof.
  revert s. induction n as [|n IH]; intros [|a s]; simpl; try done.
  rewrite contains_cons. intros [? ?]%orb_false_elim. auto.
Qed.

Lemma contains_lstrip c f s :
  Str.contains c s = false -> Str.contains c (Str.lstrip f s) = false.
Proof.
  induction s as [|a s IH]; simpl; [done|].
  destruct (f a); [|done]. rewrite contains_cons.
  intros [? ?]%orb_false_elim. auto.
Qed.

Lemma contains_remove c d s :
  Str.contains c s = false -> Str.contains c (Str.remove d s) = false.
Proof.
  induction s as [|a s IH]; simpl; [done|].
  rewrite contains_cons. intros [? ?]%orb_false_elim.
  destruct (Ascii.eqb a d); [auto|].
  rewrite contains_cons. apply orb_false_intro; auto.
Qed.

Lemma contains_cleaned c url :
  Str.contains c url = false -> Str.contains c (cleaned url) = false.
Proof.
  intros H. unfold cleaned, Urllib.remove_unsafe.
  by do 3 apply contains_remove; apply contains_lstrip.
Qed.

(** What holds of every character of a text holds in its parts. *)
Lemma forallb_take f n s :
  Str.forallb f s = true -> Str.forallb f (Str.take n s) = true.
Proof.
  revert n. induction s as [|a s IH]; intros [|n]; simpl; try done.
  intros [-> Hs]%andb_true_iff. by apply IH.
Qed.

Lemma forallb_drop f n s :
  Str.forallb f s = true -> Str.forallb f (Str.drop n s) = true.
Proof.
  revert n. induction s as [|a s IH]; intros [|n]; simpl; try done.
  intros [_ Hs]%andb_true_iff. by apply IH.
Qed.

Lemma forallb_lstrip_of f g s :
  Str.forallb f s = true -> Str.forallb f (Str.lstrip g s) = true.
Proof.
  induction s as [|a s IH]; simpl; [done|].
  intros [Ha Hs]%andb_true_iff.
  destruct (g a); [by apply IH|]. simpl. by rewrite Ha, Hs.
Qed.

Lemma forallb_remove f c s :
  Str.forallb f s = true -> Str.forallb f (Str.remove c s) = true.
Proof.
  induction s as [|a s IH]; simpl; [done|].
  intros [Ha Hs]%andb_true_iff.
  destruct (Ascii.eqb a c); [by apply IH|]. simpl. by rewrite Ha, IH.
Qed.

Lemma forallb_cleaned f url :
  Str.forallb f url = true -> Str.forallb f (cleaned url) = true.
Proof.
  intros H. unfold cleaned, Urllib.remove_unsafe.
  by do 3 apply forallb_remove; apply forallb_lstrip_of.
Qed.

(** ** Parsing the URL *)

Lemma urlsplit_tail nfkc sch (m : result (string * string)) r :
  ('(netloc, url) ← m;
   let '(url, fragment) :=
     if Str.contains "#" url then Urllib.split_once "#" url
     else (url, EmptyString) in
   let '(url, query) :=
     if Str.contains "?" url then Urllib.split_once "?" url
     else (url, EmptyString) in
   _ ← Urllib._checknetloc nfkc netloc;
   Ok {| Urllib.scheme := sch; Urllib.netloc := netloc;
         Urllib.path := url; Urllib.params := EmptyString;
         Urllib.query := query; Urllib.fragment := fragment |}) = Ok r ->
  Urllib.scheme r = sch.
Proof.
  destruct m as [[netloc u1]|]; cbn; [|done].
  destruct (if Str.contains "#" u1 then _ else _) as [u2 fragment].
  destruct (if Str.contains "?" u2 then _ else _) as [u3 query].
  destruct (Urllib._checknetloc nfkc netloc); cbn; [|done].
  by intros [= <-].
Qed.

(** The scheme of a URL that [urlsplit] accepts. *)
Lemma urlsplit_scheme check nfkc url r :
  Urllib.urlsplit check nfkc url = Ok r ->
  Urllib.scheme r = scheme_text (cleaned url).
Proof.
  unfold Urllib.urlsplit, scheme_text. fold (cleaned url).
  intros H. destruct (_ && _ && _); cbv beta iota in H;
    by apply urlsplit_tail in H.
Qed.

Lemma urlparse_scheme check nfkc url parsed :
  Urllib.urlparse check nfkc url = Ok parsed ->
  Urllib.scheme parsed = scheme_text (cleaned url).
Proof.
  unfold Urllib.urlparse.
  destruct (Urllib.urlsplit check nfkc url) as [r|] eqn:Hr; cbn; [|done].
  apply urlsplit_scheme in Hr.
  destruct (_ && _); [destruct (Urllib._splitparams _)|]; by intros [= <-].
Qed.

Lemma splitnetloc_contains c url start :
  Str.contains c url = false ->
  Str.contains c (Urllib._splitnetloc url start).1 = false.
Proof.
  intros H. unfold Urllib._splitnetloc, Str.slice_from, Str.slice_to. simpl.
  by apply contains_drop, contains_take.
Qed.

Lemma splitnetloc_forallb f url start :
  Str.forallb f url = true ->
  Str.forallb f (Urllib._splitnetloc url start).1 = true.
Proof.
  intros H. unfold Urllib._splitnetloc, Str.slice_from, Str.slice_to. simpl.
  by apply forallb_drop, forallb_take.
Qed.

(** An ASCII location passes [_checknetloc] without normalisation. *)
Lemma checknetloc_ascii nfkc netloc :
  ascii_text netloc -> Urllib._checknetloc nfkc netloc = Ok tt.
Proof.
  intros H. unfold Urllib._checknetloc. rewrite H. by rewrite orb_true_r.
Qed.

(** [urlsplit] raises on square brackets and on locations that are not
    ASCII only. *)
Lemma urlsplit_plain check nfkc url :
  bracket_free url -> ascii_text url ->
  exists r, Urllib.urlsplit check nfkc url = Ok r.
Proof.
  intros [Hl Hr] Ha. apply contains_cleaned in Hl, Hr.
  apply forallb_cleaned in Ha.
  unfold Urllib.urlsplit. fold (cleaned url).
  set (u := cleaned url) in *.
  assert (forall v, Str.contains "[" v = false -> Str.contains "]" v = false ->
            ascii_text v ->
            exists r,
              ('(netloc, url) ←
                 (if String.eqb (Str.slice_to v 2) "//" then
                    let '(netloc, url) := Urllib._splitnetloc v 2 in
                    let lb := Str.contains "[" netloc in
                    let rb := Str.contains "]" netloc in
                    if (lb && negb rb) || (rb && negb lb) then Raise ValueError
                    else if lb && rb && negb (check netloc)
                         then Raise ValueError
                    else Ok (netloc, url)
                  else Ok (EmptyString, v));
               let '(url, fragment) :=
                 if Str.contains "#" url then Urllib.split_once "#" url
                 else (url, EmptyString) in
               let '(url, query) :=
                 if Str.contains "?" url then Urllib.split_once "?" url
                 else (url, EmptyString) in
               _ ← Urllib._checknetloc nfkc netloc;
               Ok {| Urllib.scheme := scheme_text u; Urllib.netloc := netloc;
                     Urllib.path := url; Urllib.params := EmptyString;
                     Urllib.query := query; Urllib.fragment := fragment |})
              = Ok r) as Hrest.
  { intros v Hvl Hvr Hva.
    destruct (String.eqb (Str.slice_to v 2) "//").
    - pose proof (splitnetloc_contains "[" v 2 Hvl) as Hnl.
      pose proof (splitnetloc_contains "]" v 2 Hvr) as Hnr.
      pose proof (splitnetloc_forallb Str.is_ascii v 2 Hva) as Hna.
      destruct (Urllib._splitnetloc v 2) as [netloc rest].
      simpl in Hnl, Hnr, Hna.
      cbv zeta. rewrite Hnl, Hnr. cbn.
      rewrite (checknetloc_ascii nfkc netloc Hna).
      repeat case_match; eauto.
    - cbn. repeat case_match; eauto. }
  unfold scheme_text in Hrest.
  destruct (_ && _ && _).
  - apply Hrest; [by apply contains_drop..|by apply forallb_drop].
  - by apply Hrest.
Qed.

Lemma is_safe_url_plain W url :
  bracket_free url -> ascii_text url ->
  exists safe, is_safe_url W url = Ok safe.
Proof.
  intros H Ha. unfold is_safe_url, Urllib.urlparse.
  destruct (urlsplit_plain (check_bracketed_netloc W) (check_nfkc_netloc W)
              url H Ha) as [r ->].
  cbn. destruct (_ && _); [destruct (Urllib._splitparams _)|]; cbn; eauto.
Qed.

(** X6: a batch of ASCII URLs none of which holds a square bracket runs
    to its end: [urlparse] raises on square brackets and on network
    locations that are not ASCII only, so no exception leaves
    [download_image], one line is printed per URL and [main] reports. *)
Theorem bracket_free_batch_completes W st urls :
  Forall bracket_free urls ->
  Forall ascii_text urls ->
  exists st' lines rep,
    main W st urls = (st', lines, Ok rep)
    /\ length lines = length urls
    /\ (urls <> [] ->
        rep = Summary (saved_count lines) (Z.of_nat (length urls))).
Proof.
  intros Hall Hascii. unfold main. destruct urls as [|url urls].
  { exists st, [], NoUrlsProvided. by repeat split. }
  assert (Forall (fun u => exists safe, is_safe_url W u = Ok safe) (url :: urls))
    as Hsafe.
  { apply List.Forall_forall. intros u Hu.
    rewrite List.Forall_forall in Hall, Hascii.
    apply is_safe_url_plain; auto. }
  destruct (for_urls_returns W (url :: urls) st 0 Hsafe) as (st' & lines & m & Hf).
  rewrite Hf. apply for_urls_summary in Hf as [-> Hlen].
  eexists st', lines, _. split; [reflexivity|]. split; [done|].
  intros _. cbn. do 2 f_equal.
Qed.

(** ** The scheme in the text of the URL *)

Lemma lower_char_alpha a :
  Str.is_lower_ascii (Str.lower_char a) = true -> Str.is_ascii_alpha a = true.
Proof. destruct a as [[] [] [] [] [] [] [] []]; vm_compute; congruence. Qed.

Lemma alpha_not_colon a :
  Str.is_ascii_alpha a = true -> Ascii.eqb a ":"%char = false.
Proof. destruct a as [[] [] [] [] [] [] [] []]; vm_compute; congruence. Qed.

Lemma lower_alpha s :
  Str.forallb Str.is_lower_ascii (Str.lower s) = true ->
  Str.forallb Str.is_ascii_alpha s = true.
Proof.
  induction s as [|a s IH]; simpl; [done|].
  intros [Ha Hs]%andb_true_iff. apply andb_true_iff. split; [|auto].
  by apply lower_char_alpha.
Qed.

Lemma alpha_no_colon s :
  Str.forallb Str.is_ascii_alpha s = true -> Str.contains ":" s = false.
Proof.
  induction s as [|a s IH]; simpl; [done|].
  intros [Ha Hs]%andb_true_iff. rewrite contains_cons.
  apply orb_false_intro; [by apply alpha_not_colon | auto].
Qed.

Lemma alpha_scheme_chars s :
  Str.forallb Str.is_ascii_alpha s = true ->
  Str.forallb Urllib.is_scheme_char s = true.
Proof.
  induction s as [|a s IH]; simpl; [done|].
  intros [Ha Hs]%andb_true_iff. apply andb_true_iff. split; [|auto].
  unfold Urllib.is_scheme_char. by rewrite Ha.
Qed.

(** The first [c] of a text that holds one before it stands after the
    part without [c]. *)
Lemma find_app_absent c s t :
  Str.contains c s = false -> Str.find c (s +:+ String c t) = Str.len s.
Proof.
  induction s as [|a s IH].
  - intros _. rewrite string_app_nil_l. simpl. by rewrite Ascii.eqb_refl.
  - rewrite contains_cons. intros [Ha Hs]%orb_false_elim.
    rewrite string_app_cons. simpl. rewrite Ha, IH by done.
    unfold Str.len. simpl String.length.
    destruct (Z.ltb_spec (Z.of_nat (String.length s)) 0); lia.
Qed.

Lemma take_app_length s t : Str.take (String.length s) (s +:+ t) = s.
Proof.
  induction s as [|a s IH]; [reflexivity|].
  simpl String.length. rewrite string_app_cons. simpl. by rewrite IH.
Qed.

(** A text cut at the first [c]. *)
Lemma find_split c s :
  0 <= Str.find c s ->
  s = Str.slice_to s (Str.find c s)
      +:+ String c (Str.slice_from s (Str.find c s + 1)).
Proof.
  unfold Str.slice_to, Str.slice_from.
  induction s as [|a s IH]; simpl; [lia|].
  destruct (Ascii.eqb_spec a c) as [->|Hne]; [done|].
  pose proof (find_ge c s).
  destruct (Z.ltb_spec (Str.find c s) 0); [lia|]. intros _.
  replace (Z.to_nat (Str.find c s + 1)) with (S (Z.to_nat (Str.find c s)))
    by lia.
  replace (Z.to_nat (Str.find c s + 1 + 1))
    with (S (Z.to_nat (Str.find c s + 1))) by lia.
  simpl. rewrite string_app_cons. f_equal. apply IH. lia.
Qed.

(** The scheme read off a text that starts with letters and a colon. *)
Lemma scheme_text_letters s rest :
  s <> EmptyString ->
  Str.forallb Str.is_ascii_alpha s = true ->
  scheme_text (s +:+ ":" +:+ rest) = Str.lower s.
Proof.
  intros Hne Halpha. unfold scheme_text.
  change (":" +:+ rest) with (String ":"%char rest).
  rewrite (find_app_absent _ _ _ (alpha_no_colon _ Halpha)).
  unfold Str.slice_to, Str.len. rewrite Nat2Z.id, take_app_length.
  rewrite (alpha_scheme_chars _ Halpha), andb_true_r.
  destruct s as [|a s]; [done|].
  simpl in Halpha. apply andb_true_iff in Halpha as [Ha _].
  rewrite string_app_cons.
  assert ((0 <? Z.of_nat (String.length (String a s))) = true) as ->
    by (apply Z.ltb_lt; simpl; lia).
  replace (Z.to_nat 1) with 1%nat by lia. simpl. by rewrite Ha.
Qed.

(** X7: [is_safe_url] in terms of the text of the URL: it answers [True]
    exactly when [urlparse] accepts the URL and the URL, cleaned of
    leading control characters and spaces and of tabs and line ends,
    reads [<scheme>:<rest>] with a scheme that is [http] or [https] up
    to the case of its letters. *)
Theorem is_safe_url_reads_scheme W url :
  is_safe_url W url = Ok true
  <-> (exists parsed, Urllib.urlparse (check_bracketed_netloc W) (check_nfkc_netloc W) url = Ok parsed)
      /\ exists s rest,
           cleaned url = s +:+ ":" +:+ rest
           /\ (Str.lower s = "http" \/ Str.lower s = "https").
Proof.
  unfold is_safe_url. split.
  - destruct (Urllib.urlparse _ _ url) as [parsed|] eqn:Hp; cbn; [|done].
    intros [= Hs]. apply bool_decide_eq_true in Hs.
    split; [eauto|].
    apply urlparse_scheme in Hp. rewrite Hp in Hs.
    assert (scheme_text (cleaned url) = "http"
            \/ scheme_text (cleaned url) = "https") as Hs'
      by (rewrite !elem_of_cons, elem_of_nil in Hs; tauto).
    clear Hs. unfold scheme_text in Hs'.
    destruct (Z.ltb_spec 0 (Str.find ":" (cleaned url))) as [Hpos|];
      [|by destruct Hs'].
    destruct (_ && _ && _); [|by destruct Hs'].
    exists (Str.slice_to (cleaned url) (Str.find ":" (cleaned url))),
           (Str.slice_from (cleaned url) (Str.find ":" (cleaned url) + 1)).
    split; [|done]. apply find_split. lia.
  - intros ([parsed Hp] & s & rest & Hu & Hs). rewrite Hp. cbn. f_equal.
    apply bool_decide_eq_true. apply urlparse_scheme in Hp.
    rewrite Hp, Hu, scheme_text_letters.
    + rewrite !elem_of_cons. tauto.
    + intros ->. by destruct Hs.
    + apply lower_alpha. by destruct Hs as [-> | ->].
Qed.

(** ** Where the files go *)

Lemma string_app_assoc s t u : (s +:+ t) +:+ u = s +:+ (t +:+ u).
Proof.
  induction s as [|a s IH]; [done|]. rewrite !string_app_cons. by rewrite IH.
Qed.

Lemma rfind_neg_absent c s : Str.rfind c s < 0 -> Str.contains c s = false.
Proof.
  induction s as [|a s IH]; simpl; [done|].
  rewrite contains_cons.
  destruct (Z.leb_spec 0 (Str.rfind c s)); [lia|].
  destruct (Ascii.eqb a c); [lia|]. intros _. simpl. apply IH. lia.
Qed.

(** The last [c] of a text stands before the part without [c]. *)
Lemma rfind_app_absent c s t :
  Str.contains c t = false -> Str.rfind c (s +:+ String c t) = Str.len s.
Proof.
  intros Ht. induction s as [|a s IH].
  - rewrite string_app_nil_l. simpl. rewrite (rfind_absent _ _ Ht).
    by rewrite Ascii.eqb_refl.
  - rewrite string_app_cons. simpl. rewrite IH.
    unfold Str.len. simpl String.length.
    destruct (Z.leb_spec 0 (Z.of_nat (String.length s))); lia.
Qed.

Lemma basename_has_no_slash p : Str.contains "/" (OsPath.basename p) = false.
Proof.
  unfold OsPath.basename, Str.slice_from.
  induction p as [|a p IH]; [done|]. simpl Str.rfind.
  pose proof (rfind_nonneg "/" p).
  destruct (Z.leb_spec 0 (Str.rfind "/" p)) as [Hr|Hr].
  - replace (Z.to_nat (Str.rfind "/" p + 1 + 1))
      with (S (Z.to_nat (Str.rfind "/" p + 1))) by lia.
    exact IH.
  - pose proof (rfind_neg_absent "/" p Hr) as Hp.
    destruct (Ascii.eqb a "/"%char) eqn:Ha; simpl; [exact Hp|].
    rewrite contains_cons, Ha. exact Hp.
Qed.

Lemma extension_has_no_slash content_type :
  Str.contains "/" (get_extension_from_content_type content_type) = false.
Proof.
  unfold get_extension_from_content_type.
  destruct (content_map !! content_type) as [e|] eqn:E; [|reflexivity].
  apply elem_of_list_to_map_2 in E. simpl.
  repeat (apply elem_of_cons in E as [[= _ ->]|E]; [reflexivity|]).
  by apply elem_of_nil in E.
Qed.

(** The file name is never empty and holds no slash. *)
Lemma filename_has_no_slash W url content_type filename :
  get_filename_from_url W url content_type = Ok filename ->
  filename <> EmptyString /\ Str.contains "/" filename = false.
Proof.
  unfold get_filename_from_url.
  destruct (Urllib.urlparse _ _ url) as [parsed|]; cbn; [|done].
  pose proof (basename_has_no_slash (Urllib.path parsed)) as Hb.
  pose proof (extension_has_no_slash content_type) as He.
  destruct (OsPath.basename (Urllib.path parsed)) as [|a s] eqn:Hname; simpl.
  - intros [= <-]. split; [done|]. by rewrite contains_app.
  - destruct (OsPath.splitext (String a s)) as [base ext].
    destruct ext; simpl; intros [= <-]; (split; [done|]); [|exact Hb].
    rewrite string_app_cons, contains_cons.
    rewrite contains_cons in Hb. apply orb_false_elim in Hb as [-> Hs].
    simpl. by rewrite contains_app, Hs.
Qed.

Lemma join_fetched_images filename :
  filename <> EmptyString -> Str.contains "/" filename = false ->
  OsPath.join "Fetched_Images" filename = "Fetched_Images" +:+ "/" +:+ filename.
Proof.
  intros Hne Hs. destruct filename as [|a s]; [done|].
  rewrite contains_cons in Hs. apply orb_false_elim in Hs as [Ha _].
  unfold OsPath.join, Str.startswith.
  change (String.prefix "/" (String a s))
    with (if ascii_dec "/" a then String.prefix "" s else false).
  destruct (ascii_dec "/" a) as [<-|_]; [discriminate Ha|]. reflexivity.
Qed.

Lemma take_app_ge s t n :
  (String.length s <= n)%nat ->
  Str.take n (s +:+ t) = s +:+ Str.take (n - String.length s) t.
Proof.
  revert n. induction s as [|a s IH]; intros n Hn.
  - rewrite !string_app_nil_l. simpl. by rewrite Nat.sub_0_r.
  - destruct n as [|n]; [simpl in Hn; lia|].
    rewrite !string_app_cons. simpl. rewrite IH by (simpl in Hn; lia). done.
Qed.

Lemma drop_app_ge s t n :
  (String.length s <= n)%nat ->
  Str.drop n (s +:+ t) = Str.drop (n - String.length s) t.
Proof.
  revert n. induction s as [|a s IH]; intros n Hn.
  - rewrite string_app_nil_l. simpl. by rewrite Nat.sub_0_r.
  - destruct n as [|n]; [simpl in Hn; lia|].
    rewrite string_app_cons. simpl. apply IH. simpl in Hn. lia.
Qed.

(** Splitting the extension off a path leaves the directory alone. *)
Lemma splitext_in_directory dir name :
  Str.contains "/" name = false ->
  exists base ext,
    OsPath.splitext (dir +:+ "/" +:+ name) = (dir +:+ "/" +:+ base, ext)
    /\ Str.contains "/" base = false /\ Str.contains "/" ext = false.
Proof.
  intros Hn. unfold OsPath.splitext.
  change ("/" +:+ name) with (String "/"%char name).
  rewrite (rfind_app_absent "/" dir name Hn).
  destruct (_ && _) eqn:Hcond.
  - apply andb_true_iff in Hcond as [Hlt%Z.ltb_lt _].
    set (d := Str.rfind "." (dir +:+ String "/"%char name)) in *.
    unfold Str.len in Hlt.
    exists (Str.take (Z.to_nat d - S (String.length dir)) name),
           (Str.drop (Z.to_nat d - S (String.length dir)) name).
    split; [|split; [by apply contains_take | by apply contains_drop]].
    unfold Str.slice_to, Str.slice_from.
    change (dir +:+ String "/"%char name) with (dir +:+ "/" +:+ name).
    rewrite <- !string_app_assoc.
    assert (String.length (dir +:+ "/") = S (String.length dir)) as Hlen.
    { clear. induction dir as [|a dir IH]; [done|].
      rewrite string_app_cons. simpl. by rewrite IH. }
    rewrite take_app_ge, drop_app_ge by (rewrite Hlen; lia).
    by rewrite Hlen.
  - exists name, EmptyString. by repeat split.
Qed.

Lemma pretty_N_char_not_slash y : Ascii.eqb (pretty_N_char y) "/"%char = false.
Proof. unfold pretty_N_char. by repeat case_match. Qed.

Lemma pretty_N_go_no_slash x : forall s,
  Str.contains "/" s = false -> Str.contains "/" (pretty_N_go x s) = false.
Proof.
  induction x as [x IH] using (well_founded_induction N.lt_wf_0). intros s Hs.
  destruct (decide (0 < x)%N) as [Hx|Hx].
  - rewrite pretty_N_go_step by done. apply IH.
    + apply N.div_lt; [done|]. reflexivity.
    + by rewrite contains_cons, pretty_N_char_not_slash.
  - assert (x = 0%N) as -> by lia. by rewrite pretty_N_go_0.
Qed.

Lemma pretty_nat_no_slash (k : nat) : Str.contains "/" (pretty k) = false.
Proof.
  unfold pretty, pretty_nat, pretty, pretty_N.
  destruct (decide _); [reflexivity|]. by apply pretty_N_go_no_slash.
Qed.

(** X8: every saved image lies directly in [Fetched_Images]: the path
    written is [Fetched_Images/<name>] with a name that is not empty
    and holds no slash, whatever the URL and the names already taken. *)
Theorem saved_path_in_directory W st url st' filename filepath r :
  download_image W st url = Ok (st', (SuccessfullyFetched filename filepath, r)) ->
  exists name,
    filepath = "Fetched_Images" +:+ "/" +:+ name
    /\ name <> EmptyString
    /\ Str.contains "/" name = false
    /\ OsPath.basename filepath = name.
Proof.
  intros Hd.
  apply download_image_saved_inv in Hd
    as (response & content & _ & _ & Hname & Hp & _).
  apply filename_has_no_slash in Hname as [Hne Hs].
  rewrite (join_fetched_images _ Hne Hs) in Hp.
  assert (forall name, name <> EmptyString -> Str.contains "/" name = false ->
            filepath = "Fetched_Images" +:+ "/" +:+ name ->
            exists name',
              filepath = "Fetched_Images" +:+ "/" +:+ name'
              /\ name' <> EmptyString /\ Str.contains "/" name' = false
              /\ OsPath.basename filepath = name') as Hdone.
  { intros name Hn Hc ->. exists name. repeat split; try done.
    by apply basename_after_slash. }
  pose proof (unique_filepath_spec (files st)
                ("Fetched_Images" +:+ "/" +:+ filename)) as Hspec.
  cbv zeta in Hspec. rewrite <- Hp in Hspec.
  destruct (splitext_in_directory "Fetched_Images" filename Hs)
    as (base & ext & Hsplit & Hb & He).
  rewrite Hsplit in Hspec.
  destruct Hspec as (_ & [[_ ->]|(_ & k & _ & -> & _)]).
  - by apply (Hdone filename).
  - apply (Hdone (base +:+ "_" +:+ pretty k +:+ ext)).
    + destruct base; done.
    + rewrite !contains_app, Hb, He, pretty_nat_no_slash. reflexivity.
    + unfold candidate. by rewrite !string_app_assoc.
Qed.

(** ** Reading the input line *)

Lemma rev_app_app s t : String.rev_app s t = String.rev s +:+ t.
Proof.
  unfold String.rev. revert t.
  induction s as [|a s IH]; intros t; simpl; [done|].
  rewrite (IH (String a t)), (IH (String a "")), string_app_assoc. done.
Qed.

Lemma rev_cons a s : String.rev (String a s) = String.rev s +:+ String a "".
Proof. unfold String.rev at 1. simpl. apply rev_app_app. Qed.

Lemma rev_snoc s a : String.rev (s +:+ String a "") = String a (String.rev s).
Proof.
  unfold String.rev.
  enough (forall t, String.rev_app (s +:+ String a "") t
                    = String a (String.rev_app s t)) as H by apply H.
  induction s as [|b s IH]; intros t; [done|].
  rewrite string_app_cons. simpl. apply IH.
Qed.

Section strip.

Variable f : ascii -> bool.

Lemma lstrip_snoc s a :
  Str.lstrip f (s +:+ String a "") =
  match Str.lstrip f s with
  | EmptyString => if f a then EmptyString else String a EmptyString
  | r => r +:+ String a ""
  end.
Proof.
  induction s as [|b s IH]; [done|].
  rewrite string_app_cons. simpl. destruct (f b); [exact IH|done].
Qed.

(** [rstrip] read from the left. *)
Lemma rstrip_cons a s :
  Str.rstrip f (String a s) =
  match Str.rstrip f s with
  | EmptyString => if f a then EmptyString else String a EmptyString
  | r => String a r
  end.
Proof.
  unfold Str.rstrip. rewrite rev_cons, lstrip_snoc.
  destruct (Str.lstrip f (String.rev s)) as [|b r].
  - by destruct (f a).
  - rewrite rev_snoc. rewrite rev_cons. by destruct (String.rev r).
Qed.

Lemma lstrip_all s : Str.lstrip f s = EmptyString <-> Str.forallb f s = true.
Proof.
  induction s as [|a s IH]; simpl; [done|].
  destruct (f a); simpl; [exact IH|]. split; discriminate.
Qed.

Lemma rstrip_all s : Str.rstrip f s = EmptyString <-> Str.forallb f s = true.
Proof.
  induction s as [|a s IH]; [done|].
  rewrite rstrip_cons. simpl.
  destruct (Str.rstrip f s) as [|b r].
  - destruct IH as [IH _]. rewrite (IH eq_refl), andb_true_r.
    destruct (f a); split; done.
  - split; [discriminate|]. intros [_ Hs]%andb_true_iff.
    destruct IH as [_ IH]. discriminate (IH Hs).
Qed.

Lemma forallb_lstrip s : Str.forallb f (Str.lstrip f s) = Str.forallb f s.
Proof.
  induction s as [|a s IH]; simpl; [done|].
  destruct (f a) eqn:Ha; simpl; [exact IH|]. by rewrite Ha.
Qed.

Lemma lstrip_lstrip s : Str.lstrip f (Str.lstrip f s) = Str.lstrip f s.
Proof.
  induction s as [|a s IH]; simpl; [done|].
  destruct (f a) eqn:Ha; simpl; [exact IH|]. by rewrite Ha.
Qed.

Lemma rstrip_rstrip s : Str.rstrip f (Str.rstrip f s) = Str.rstrip f s.
Proof.
  induction s as [|a s IH]; [done|].
  rewrite rstrip_cons.
  destruct (Str.rstrip f s) as [|b r] eqn:Hs.
  - destruct (f a) eqn:Ha; [done|].
    rewrite rstrip_cons. change (Str.rstrip f "") with "". by rewrite Ha.
  - rewrite rstrip_cons, IH. done.
Qed.

(** The two ends are stripped independently. *)
Lemma lstrip_rstrip s :
  Str.lstrip f (Str.rstrip f s) = Str.rstrip f (Str.lstrip f s).
Proof.
  induction s as [|a s IH]; [done|].
  rewrite rstrip_cons. simpl Str.lstrip at 2.
  destruct (Str.rstrip f s) as [|b r] eqn:Hs.
  - destruct (f a) eqn:Ha.
    + apply rstrip_all in Hs. apply lstrip_all in Hs. by rewrite Hs.
    + simpl. rewrite Ha, rstrip_cons, Hs, Ha. done.
  - simpl. destruct (f a) eqn:Ha; [exact IH|].
    by rewrite rstrip_cons, Hs.
Qed.

Lemma contains_rstrip c s :
  Str.contains c s = false -> Str.contains c (Str.rstrip f s) = false.
Proof.
  induction s as [|a s IH]; [done|].
  rewrite contains_cons, rstrip_cons.
  intros [Ha Hs]%orb_false_elim. specialize (IH Hs).
  destruct (Str.rstrip f s) as [|b r].
  - destruct (f a); [done|]. by rewrite contains_cons, Ha.
  - by rewrite contains_cons, Ha, IH.
Qed.

Lemma forallb_absent c s :
  f c = false -> Str.forallb f s = true -> Str.contains c s = false.
Proof.
  intros Hc. induction s as [|a s IH]; simpl; [done|].
  intros [Ha Hs]%andb_true_iff. rewrite contains_cons, (IH Hs), orb_false_r.
  destruct (Ascii.eqb_spec a c) as [->|]; congruence.
Qed.

End strip.

Lemma split_cons c a s :
  Str.split c (String a s) =
  if Ascii.eqb a c then EmptyString :: Str.split c s
  else match Str.split c s with
       | piece :: pieces => String a piece :: pieces
       | [] => [String a EmptyString]
       end.
Proof. reflexivity. Qed.

Lemma split_nonempty c s : exists piece pieces, Str.split c s = piece :: pieces.
Proof.
  destruct s as [|a s]; simpl; [eauto|].
  destruct (Ascii.eqb a c); [eauto|]. destruct (Str.split c s); eauto.
Qed.

Lemma split_absent c s : Str.contains c s = false -> Str.split c s = [s].
Proof.
  induction s as [|a s IH]; simpl; [done|].
  rewrite contains_cons. intros [-> Hs]%orb_false_elim. by rewrite (IH Hs).
Qed.

Lemma split_app c s t :
  Str.contains c s = false ->
  Str.split c (s +:+ String c t) = s :: Str.split c t.
Proof.
  induction s as [|a s IH].
  - intros _. rewrite string_app_nil_l. simpl. by rewrite Ascii.eqb_refl.
  - rewrite contains_cons, string_app_cons. intros [Ha Hs]%orb_false_elim.
    simpl. by rewrite Ha, (IH Hs).
Qed.

(** No piece of [s.split(c)] holds [c], and none holds a character
    that [s] does not hold. *)
Lemma split_pieces c d s :
  (d = c \/ Str.contains d s = false) ->
  Forall (fun piece => Str.contains d piece = false) (Str.split c s).
Proof.
  induction s as [|a s IH]; intros Hd; simpl.
  - by apply List.Forall_cons.
  - assert (d = c \/ Str.contains d s = false) as Hd'.
    { destruct Hd as [->|Hd]; [by left|right].
      rewrite contains_cons in Hd. by apply orb_false_elim in Hd as [_ ?]. }
    specialize (IH Hd').
    destruct (Ascii.eqb a c) eqn:Ha; [by apply List.Forall_cons|].
    assert (Ascii.eqb a d = false) as Had.
    { destruct Hd as [->|Hd]; [done|].
      rewrite contains_cons in Hd. by apply orb_false_elim in Hd as [? _]. }
    destruct (Str.split c s) as [|piece pieces].
    + apply List.Forall_cons; [|done]. by rewrite contains_cons, Had.
    + inversion IH as [|? ? Hp Hps]; subst.
      apply List.Forall_cons; [|done]. by rewrite contains_cons, Had, Hp.
Qed.

(** [split] undoes [join] on pieces without the separator. *)
Lemma split_join c pieces :
  pieces <> [] ->
  Forall (fun piece => Str.contains c piece = false) pieces ->
  Str.split c (Str.join c pieces) = pieces.
Proof.
  induction pieces as [|piece pieces IH]; [done|]. intros _ Hall.
  inversion Hall as [|? ? Hp Hps]; subst.
  destruct pieces as [|piece' pieces].
  - simpl. by apply split_absent.
  - change (Str.join c (piece :: piece' :: pieces))
      with (piece +:+ String c (Str.join c (piece' :: pieces))).
    rewrite (split_app _ _ _ Hp), IH; done.
Qed.

Lemma split_lstrip f c s :
  f c = false ->
  List.map (Str.lstrip f) (Str.split c (Str.lstrip f s))
  = List.map (Str.lstrip f) (Str.split c s).
Proof.
  intros Hc. induction s as [|a s IH]; [done|]. simpl.
  destruct (f a) eqn:Ha; [|done].
  destruct (Ascii.eqb_spec a c) as [->|_]; [congruence|].
  rewrite IH. destruct (split_nonempty c s) as (piece & pieces & ->).
  simpl. by rewrite Ha.
Qed.

Lemma split_rstrip f c s :
  f c = false ->
  List.map (Str.rstrip f) (Str.split c (Str.rstrip f s))
  = List.map (Str.rstrip f) (Str.split c s).
Proof.
  intros Hc. induction s as [|a s IH]; [done|].
  rewrite rstrip_cons.
  destruct (Str.rstrip f s) as [|b r] eqn:Hs.
  - pose proof Hs as Hall. apply rstrip_all in Hall.
    pose proof (split_absent c s (forallb_absent f c s Hc Hall)) as Hsplit.
    clear IH. destruct (f a) eqn:Ha.
    + destruct (Ascii.eqb_spec a c) as [->|Hac]; [congruence|].
      apply Ascii.eqb_neq in Hac. simpl. rewrite Hac, Hsplit. simpl.
      by rewrite rstrip_cons, Hs, Ha.
    + simpl. destruct (Ascii.eqb a c); rewrite Hsplit; simpl.
      * by rewrite Hs.
      * by rewrite !rstrip_cons, Hs, Ha.
  - rewrite (split_cons c a (String b r)), (split_cons c a s).
    destruct (Ascii.eqb a c); [cbn [List.map]; by rewrite IH|].
    destruct (split_nonempty c (String b r)) as (p & ps & Hp).
    destruct (split_nonempty c s) as (p' & ps' & Hp').
    rewrite Hp, Hp' in *. simpl in IH. injection IH as IHp IHps.
    simpl. by rewrite !rstrip_cons, IHp, IHps.
Qed.

Lemma strip_alt s :
  Str.strip s = Str.lstrip Str.is_space (Str.rstrip Str.is_space s).
Proof. unfold Str.strip. by rewrite lstrip_rstrip. Qed.

Lemma strip_strip s : Str.strip (Str.strip s) = Str.strip s.
Proof.
  rewrite (strip_alt (Str.strip s)). unfold Str.strip.
  by rewrite rstrip_rstrip, lstrip_rstrip, lstrip_lstrip.
Qed.

Lemma strip_empty s :
  Str.strip s = EmptyString <-> Str.forallb Str.is_space s = true.
Proof.
  unfold Str.strip. by rewrite rstrip_all, forallb_lstrip.
Qed.

Lemma contains_strip c s :
  Str.contains c s = false -> Str.contains c (Str.strip s) = false.
Proof. intros H. by apply contains_rstrip, contains_lstrip. Qed.

Lemma map_strip_l pieces :
  List.map Str.strip pieces
  = List.map (Str.rstrip Str.is_space) (List.map (Str.lstrip Str.is_space) pieces).
Proof. by rewrite List.map_map. Qed.

Lemma map_strip_r pieces :
  List.map Str.strip pieces
  = List.map (Str.lstrip Str.is_space) (List.map (Str.rstrip Str.is_space) pieces).
Proof. rewrite List.map_map. apply List.map_ext, strip_alt. Qed.

(** Stripping the line first changes no stripped piece. *)
Lemma split_strip c s :
  Str.is_space c = false ->
  List.map Str.strip (Str.split c (Str.strip s))
  = List.map Str.strip (Str.split c s).
Proof.
  intros Hc.
  rewrite (map_strip_r (Str.split c (Str.strip s))), (map_strip_l (Str.split c s)).
  unfold Str.strip. rewrite split_rstrip by done.
  rewrite <- (map_strip_r (Str.split c (Str.lstrip Str.is_space s))).
  rewrite (map_strip_l (Str.split c (Str.lstrip Str.is_space s))).
  by rewrite split_lstrip.
Qed.

(** The early return and the first [strip] of [get_user_urls] change
    nothing: the result is the stripped pieces of the line that are not
    empty. *)
Lemma get_user_urls_split line :
  get_user_urls line
  = List.filter Str.truthy (List.map Str.strip (Str.split ","%char line)).
Proof.
  unfold get_user_urls. cbv zeta.
  rewrite <- (split_strip ","%char line eq_refl).
  by destruct (Str.strip line).
Qed.

(** X9: every URL [get_user_urls] hands to [main] is clean: it is not
    empty, holds no comma and has no white space at either end,
    whatever line was typed. *)
Theorem get_user_urls_clean line : Forall clean_url (get_user_urls line).
Proof.
  rewrite get_user_urls_split. apply List.Forall_forall. intros url Hin.
  apply List.filter_In in Hin as [Hin Ht].
  apply List.in_map_iff in Hin as (piece & <- & Hin).
  pose proof (split_pieces ","%char ","%char line (or_introl eq_refl)) as Hp.
  rewrite List.Forall_forall in Hp. specialize (Hp piece Hin).
  split; [by destruct (Str.strip piece)|].
  split; [by apply contains_strip|apply strip_strip].
Qed.

(** X10: a line typed as pieces between commas gives the pieces stripped of
    the white space around them, in their order, the blank ones left
    out. *)
Theorem get_user_urls_of_pieces pieces :
  Forall comma_free pieces ->
  get_user_urls (Str.join "," pieces)
  = List.filter Str.truthy (List.map Str.strip pieces).
Proof.
  intros Hall. rewrite get_user_urls_split.
  destruct pieces as [|piece pieces]; [reflexivity|].
  by rewrite split_join.
Qed.

Lemma strip_clean urls :
  Forall clean_url urls ->
  List.filter Str.truthy (List.map Str.strip urls) = urls.
Proof.
  induction 1 as [|url urls (Hne & _ & Hs) _ IH]; [done|].
  simpl. rewrite Hs, IH. by destruct url.
Qed.

(** X11: round trip: clean URLs typed with commas between them are read
    back as they are. *)
Theorem get_user_urls_round_trip urls :
  Forall clean_url urls -> get_user_urls (Str.join "," urls) = urls.
Proof.
  intros Hall. rewrite get_user_urls_split.
  destruct urls as [|url urls]; [reflexivity|].
  rewrite split_join; [by apply strip_clean|done|].
  eapply Forall_impl; [exact Hall|]. by intros u (_ & ? & _).
Qed.

Lemma split_all_space c s :
  Forall (fun piece => Str.forallb Str.is_space piece = true) (Str.split c s)
  <-> Str.forallb (fun a => Str.is_space a || Ascii.eqb a c) s = true.
Proof.
  induction s as [|a s IH].
  - split; [done|]. intros _. by apply List.Forall_cons.
  - rewrite split_cons. cbn [Str.forallb].
    destruct (Ascii.eqb a c); rewrite andb_true_iff, <- IH.
    + rewrite orb_true_r. split.
      * by inversion 1.
      * intros [_ H]. by apply List.Forall_cons.
    + rewrite orb_false_r.
      destruct (split_nonempty c s) as (piece & pieces & ->). split.
      * inversion 1 as [|? ? Hap Hps]; subst.
        simpl in Hap. apply andb_true_iff in Hap as [Ha Hp].
        split; [done|]. by apply List.Forall_cons.
      * intros [Ha H]. inversion H as [|? ? Hp Hps]; subst.
        apply List.Forall_cons; [|done]. simpl. by rewrite Ha, Hp.
Qed.

Lemma filter_strip_nil pieces :
  List.filter Str.truthy (List.map Str.strip pieces) = []
  <-> Forall (fun piece => Str.forallb Str.is_space piece = true) pieces.
Proof.
  induction pieces as [|piece pieces IH]; simpl.
  - split; [intros _; apply List.Forall_nil|done].
  - destruct (Str.strip piece) as [|a s] eqn:Hs; simpl.
    + apply strip_empty in Hs. rewrite IH. split.
      * intros H. by apply List.Forall_cons.
      * by inversion 1.
    + split; [discriminate|]. inversion 1 as [|? ? Hp _]; subst.
      apply strip_empty in Hp. congruence.
Qed.

(** X12: [get_user_urls] returns no URL, and [main] prints "No URLs
    provided", exactly for a line of white space and commas. *)
Theorem get_user_urls_empty line :
  get_user_urls line = [] <-> Str.forallb is_space_or_comma line = true.
Proof.
  rewrite get_user_urls_split, filter_strip_nil. apply split_all_space.
Qed.

Lemma get_user_urls_bracket_free line :
  bracket_free line -> Forall bracket_free (get_user_urls line).
Proof.
  intros [Hl Hr]. rewrite get_user_urls_split.
  apply List.Forall_forall. intros url Hin.
  apply List.filter_In in Hin as [Hin _].
  apply List.in_map_iff in Hin as (piece & <- & Hin).
  pose proof (split_pieces ","%char "["%char line (or_intror Hl)) as Hpl.
  pose proof (split_pieces ","%char "]"%char line (or_intror Hr)) as Hpr.
  rewrite List.Forall_forall in Hpl, Hpr.
  split; apply contains_strip; auto.
Qed.

Lemma forallb_rstrip_of f g s :
  Str.forallb f s = true -> Str.forallb f (Str.rstrip g s) = true.
Proof.
  induction s as [|a s IH]; [done|].
  rewrite rstrip_cons. simpl. intros [Ha Hs]%andb_true_iff.
  specialize (IH Hs). destruct (Str.rstrip g s) as [|b r].
  - destruct (g a); [done|]. simpl. by rewrite Ha.
  - change (Str.forallb f (String a (String b r)))
      with (f a && Str.forallb f (String b r)). by rewrite Ha, IH.
Qed.

Lemma forallb_split f c s :
  Str.forallb f s = true ->
  Forall (fun piece => Str.forallb f piece = true) (Str.split c s).
Proof.
  induction s as [|a s IH]; [intros _; by apply List.Forall_cons|].
  rewrite split_cons. simpl. intros [Ha Hs]%andb_true_iff.
  specialize (IH Hs). destruct (Ascii.eqb a c); [by apply List.Forall_cons|].
  destruct (Str.split c s) as [|piece pieces].
  - apply List.Forall_cons; [|done]. simpl. by rewrite Ha.
  - inversion IH as [|? ? Hp Hps]; subst.
    apply List.Forall_cons; [|done]. simpl. by rewrite Ha, Hp.
Qed.

Lemma get_user_urls_ascii line :
  ascii_text line -> Forall ascii_text (get_user_urls line).
Proof.
  intros Ha. rewrite get_user_urls_split.
  apply List.Forall_forall. intros url Hin.
  apply List.filter_In in Hin as [Hin _].
  apply List.in_map_iff in Hin as (piece & <- & Hin).
  pose proof (forallb_split Str.is_ascii ","%char line Ha) as Hp.
  rewrite List.Forall_forall in Hp.
  unfold ascii_text, Str.strip.
  apply forallb_rstrip_of, forallb_lstrip_of. auto.
Qed.

(** X13: from the input line to the report: when the line typed is
    ASCII and holds no square bracket, no exception leaves [main]; one
    line is printed for each URL read from the input, and the report is
    "No URLs provided" exactly when the line holds white space and
    commas only. *)
Theorem bracket_free_line_completes W st line :
  bracket_free line ->
  ascii_text line ->
  exists st' lines rep,
    main W st (get_user_urls line) = (st', lines, Ok rep)
    /\ length lines = length (get_user_urls line)
    /\ (rep = NoUrlsProvided
        <-> Str.forallb is_space_or_comma line = true).
Proof.
  intros Hline Hascii. apply get_user_urls_bracket_free in Hline.
  apply get_user_urls_ascii in Hascii.
  assert (get_user_urls line = []
          <-> Str.forallb is_space_or_comma line = true) as Hempty.
  { rewrite get_user_urls_split, filter_strip_nil. apply split_all_space. }
  unfold main. destruct (get_user_urls line) as [|url urls].
  { exists st, [], NoUrlsProvided. split; [done|]. split; [done|].
    split; [intros _; by apply Hempty|done]. }
  assert (Forall (fun u => exists safe, is_safe_url W u = Ok safe) (url :: urls))
    as Hsafe.
  { apply List.Forall_forall. intros u Hu.
    rewrite List.Forall_forall in Hline, Hascii.
    apply is_safe_url_plain; auto. }
  destruct (for_urls_returns W (url :: urls) st 0 Hsafe) as (st' & lines & m & Hf).
  rewrite Hf. apply for_urls_summary in Hf as [-> Hlen].
  eexists st', lines, _. split; [reflexivity|]. split; [done|].
  split; [discriminate|]. intros H. apply Hempty in H. discriminate H.
Qed.

(** ** What is saved passed every check *)

(** X14: nothing is saved that did not pass the checks: behind a saved image
    stand a URL whose scheme is [http] or [https] and a response with
    status 200, an image content type and a declared length, if any
    that is not empty, within the ceiling. *)
Theorem saved_only_after_checks W st url st' filename filepath r :
  download_image W st url = Ok (st', (SuccessfullyFetched filename filepath, r)) ->
  (exists parsed,
      Urllib.urlparse (check_bracketed_netloc W) (check_nfkc_netloc W) url = Ok parsed
      /\ (Urllib.scheme parsed = "http" \/ Urllib.scheme parsed = "https"))
  /\ exists response,
       requests_get W (requests st) url = Ok response
       /\ status_code response = 200
       /\ has_image_content_type response
       /\ declared_length_within response.
Proof.
  intros Hd.
  apply download_image_saved_inv in Hd
    as (response & content & (Hsafe & Hget & Hval & _) & _).
  split.
  - unfold is_safe_url in Hsafe.
    destruct (Urllib.urlparse _ _ url) as [parsed|] eqn:Hp; cbn in Hsafe; [|done].
    exists parsed. split; [done|]. injection Hsafe as Hs.
    apply bool_decide_eq_true_1 in Hs.
    apply elem_of_cons in Hs as [?|Hs]; [by left|].
    apply elem_of_cons in Hs as [?|Hs]; [by right|].
    by apply elem_of_nil in Hs.
  - exists response. split; [done|]. by apply validate_response_accepts_iff.
Qed.

(** ** Worked examples of the further properties *)

(** The third image of the gallery is on disk as it was sent. *)
Lemma third_image_holds_its_body :
  download_image gallery_world gallery_two "http://c.test/image.jpg"
  = Ok (gallery_three,
        (SuccessfullyFetched "image.jpg" "Fetched_Images/image_2.jpg",
         Some "Fetched_Images/image_2.jpg"))
  /\ exists chunks,
       files gallery_three !! "Fetched_Images/image_2.jpg" = Some (concat chunks)
       /\ len (concat chunks) <= max_file_size
       /\ (Hashlib.md5_hexdigest (concat chunks) ∈ downloaded_hashes gallery_three).
Proof.
  assert (download_image gallery_world gallery_two "http://c.test/image.jpg"
          = Ok (gallery_three,
                (SuccessfullyFetched "image.jpg" "Fetched_Images/image_2.jpg",
                 Some "Fetched_Images/image_2.jpg"))) as Hd
    by (vm_compute; reflexivity).
  split; [exact Hd|].
  destruct (saved_file_is_the_body _ _ _ _ _ _ _ Hd)
    as (response & chunks & _ & _ & Hfile & Hlen & _ & _ & Hin).
  exists chunks. split; [exact Hfile|]. split; [exact Hlen|exact Hin].
Defined.

(** A response whose declared length does not parse ends in "An error
    occurred" on a healthy disk, and leaves the directory and the hashes
    as they were. *)
Lemma failed_validation_changes_nothing :
  download_image bad_length_world fresh "http://example.test/a.png"
  = Ok (next_request fresh, (ErrorOccurred ValueError, None))
  /\ write_succeeds bad_length_world fresh
  /\ files (next_request fresh) = files fresh
  /\ downloaded_hashes (next_request fresh) = downloaded_hashes fresh.
Proof.
  assert (download_image bad_length_world fresh "http://example.test/a.png"
          = Ok (next_request fresh, (ErrorOccurred ValueError, None))) as Hd
    by (vm_compute; reflexivity).
  assert (is_saved (ErrorOccurred ValueError) = false) as Hs by reflexivity.
  assert (write_succeeds bad_length_world fresh) as Hw
    by (intros filepath content; reflexivity).
  split; [exact Hd|]. split; [exact Hw|].
  destruct (rejected_download_changes_nothing _ _ _ _ _ _ Hd Hs (fun _ => Hw))
    as (Hf & Hh & _).
  split; [exact Hf|exact Hh].
Defined.

(** The scenario issues two requests for its three URLs. *)
Lemma scenario_issues_two_requests :
  main scenario_world fresh scenario_urls
  = (scenario_end, scenario_printed, Ok (Summary 1 3))
  /\ requests scenario_end = 2%nat.
Proof.
  assert (main scenario_world fresh scenario_urls
          = (scenario_end, scenario_printed, Ok (Summary 1 3))) as Hm
    by (vm_compute; reflexivity).
  split; [exact Hm|].
  rewrite (one_request_per_safe_url _ _ _ _ _ _ Hm).
  vm_compute. reflexivity.
Defined.

(** The gallery in one batch: three paths, all different. *)
Lemma gallery_paths_differ :
  main gallery_world fresh gallery_urls
  = (gallery_end, gallery_printed, Ok (Summary 3 3))
  /\ NoDup (saved_paths gallery_printed)
  /\ files fresh ⊆ files gallery_end.
Proof.
  assert (main gallery_world fresh gallery_urls
          = (gallery_end, gallery_printed, Ok (Summary 3 3))) as Hm
    by (vm_compute; reflexivity).
  split; [exact Hm|].
  destruct (batch_saves_distinct_images _ _ _ _ _ _ Hm)
    as (_ & Hsub & Hnd & _).
  split; [exact Hnd|exact Hsub].
Defined.

(** The URLs of the scenario are ASCII and hold no square bracket: the
    batch runs to its summary. *)
Lemma scenario_completes :
  Forall bracket_free scenario_urls
  /\ Forall ascii_text scenario_urls
  /\ exists st' lines rep,
       main scenario_world fresh scenario_urls = (st', lines, Ok rep)
       /\ length lines = length scenario_urls
       /\ (scenario_urls <> [] ->
           rep = Summary (saved_count lines) (Z.of_nat (length scenario_urls))).
Proof.
  assert (Forall bracket_free scenario_urls) as Hall.
  { unfold scenario_urls.
    repeat (apply List.Forall_cons; [split; vm_compute; reflexivity|]).
    apply List.Forall_nil. }
  assert (Forall ascii_text scenario_urls) as Hascii.
  { unfold scenario_urls.
    repeat (apply List.Forall_cons; [vm_compute; reflexivity|]).
    apply List.Forall_nil. }
  split; [exact Hall|]. split; [exact Hascii|].
  exact (bracket_free_batch_completes scenario_world fresh scenario_urls
           Hall Hascii).
Defined.

(** The first image of the mirror goes to [Fetched_Images/a.png]. *)
Lemma first_image_in_directory :
  download_image mirror_world fresh "http://example.test/a.png"
  = Ok (mirror_one,
        (SuccessfullyFetched "a.png" "Fetched_Images/a.png",
         Some "Fetched_Images/a.png"))
  /\ exists name,
       "Fetched_Images/a.png" = "Fetched_Images" +:+ "/" +:+ name
       /\ name <> EmptyString
       /\ Str.contains "/" name = false
       /\ OsPath.basename "Fetched_Images/a.png" = name.
Proof.
  assert (download_image mirror_world fresh "http://example.test/a.png"
          = Ok (mirror_one,
                (SuccessfullyFetched "a.png" "Fetched_Images/a.png",
                 Some "Fetched_Images/a.png"))) as Hd
    by (vm_compute; reflexivity).
  split; [exact Hd|].
  exact (saved_path_in_directory _ _ _ _ _ _ _ Hd).
Defined.

(** The first image of the gallery came over [http] with status 200 and
    an image content type. *)
Lemma first_image_passed_checks :
  download_image gallery_world fresh "http://a.test/image.jpg"
  = Ok (gallery_one,
        (SuccessfullyFetched "image.jpg" "Fetched_Images/image.jpg",
         Some "Fetched_Images/image.jpg"))
  /\ (exists parsed,
        Urllib.urlparse (check_bracketed_netloc gallery_world)
          (check_nfkc_netloc gallery_world)
          "http://a.test/image.jpg" = Ok parsed
        /\ (Urllib.scheme parsed = "http" \/ Urllib.scheme parsed = "https"))
  /\ exists response,
       requests_get gallery_world (requests fresh) "http://a.test/image.jpg"
       = Ok response
       /\ status_code response = 200
       /\ has_image_content_type response
       /\ declared_length_within response.
Proof.
  assert (download_image gallery_world fresh "http://a.test/image.jpg"
          = Ok (gallery_one,
                (SuccessfullyFetched "image.jpg" "Fetched_Images/image.jpg",
                 Some "Fetched_Images/image.jpg"))) as Hd
    by (vm_compute; reflexivity).
  split; [exact Hd|].
  exact (saved_only_after_checks _ _ _ _ _ _ _ Hd).
Defined.

(** The line of the scenario, typed with blanks and an empty piece,
    gives its three URLs. *)
Lemma scenario_line_is_read :
  Forall comma_free scenario_pieces
  /\ Str.join "," scenario_pieces = scenario_line
  /\ get_user_urls (Str.join "," scenario_pieces) = scenario_urls.
Proof.
  assert (Forall comma_free scenario_pieces) as Hall.
  { unfold scenario_pieces.
    repeat (apply List.Forall_cons; [vm_compute; reflexivity|]).
    apply List.Forall_nil. }
  split; [exact Hall|]. split; [vm_compute; reflexivity|].
  rewrite (get_user_urls_of_pieces scenario_pieces Hall).
  vm_compute. reflexivity.
Defined.

(** The URLs of the scenario, joined by commas, are read back. *)
Lemma scenario_urls_round_trip :
  Forall clean_url scenario_urls
  /\ get_user_urls (Str.join "," scenario_urls) = scenario_urls.
Proof.
  assert (Forall clean_url scenario_urls) as Hall.
  { unfold scenario_urls.
    repeat (apply List.Forall_cons;
            [split; [discriminate|split; vm_compute; reflexivity]|]).
    apply List.Forall_nil. }
  split; [exact Hall|].
  exact (get_user_urls_round_trip scenario_urls Hall).
Defined.

(** The line of the scenario runs to a report. *)
Lemma scenario_line_completes :
  bracket_free scenario_line
  /\ ascii_text scenario_line
  /\ exists st' lines rep,
       main scenario_world fresh (get_user_urls scenario_line)
       = (st', lines, Ok rep)
       /\ length lines = length (get_user_urls scenario_line)
       /\ (rep = NoUrlsProvided
           <-> Str.forallb is_space_or_comma scenario_line = true).
Proof.
  assert (bracket_free scenario_line) as Hline
    by (split; vm_compute; reflexivity).
  assert (ascii_text scenario_line) as Hascii by (vm_compute; reflexivity).
  split; [exact Hline|]. split; [exact Hascii|].
  exact (bracket_free_line_completes scenario_world fresh scenario_line
           Hline Hascii).
Defined.
